(** * Slycot [exceptions.py]: [raise_if_slycot_error]

    A shallow embedding of [src/slycot/exceptions.py] and the properties of
    [raise_if_slycot_error] that the specification states.

    Python values are modelled as follows.
    - [int] is [Z]; a finite [float] is a pair [(m, k)] standing for the exact
      value [m * 2^k]; [str] is [string], each character being one code point
      below 256.
    - A [dict] with string keys is a [gmap string value].  [checkvars] is a
      dict the caller shares with the function: the function receives it and
      hands back the dict as the caller finds it afterwards.
    - A call either returns [None] or raises: [outcome].
    - [eval] and [str.format] are interpreted on a fragment of Python that is
      spelled out below; a text outside that fragment yields [OutsideModel],
      about which nothing is claimed. *)

From Stdlib Require Import ZArith Lia Ascii String List DecimalString.
From stdpp Require Import base option strings list gmap.

Local Open Scope Z_scope.

(** ** Python string primitives *)

Module PyStr.

(** [Py_UNICODE_ISSPACE] for code points below 256: it decides [str.isspace],
    [str.strip] and the class [\s] of [re] alike. *)
Definition is_space (c : ascii) : bool :=
  let n := nat_of_ascii c in
  ((9 <=? n) && (n <=? 13) || (28 <=? n) && (n <=? 32)
   || (n =? 133) || (n =? 160))%nat.

(** Line boundaries of [str.splitlines] below 256. *)
Definition is_linebreak (c : ascii) : bool :=
  let n := nat_of_ascii c in
  ((10 <=? n) && (n <=? 13) || (28 <=? n) && (n <=? 30) || (n =? 133))%nat.

Definition LF : ascii := ascii_of_nat 10.
Definition CR : ascii := ascii_of_nat 13.
Definition nl : string := String LF EmptyString.

Fixpoint all_space (s : string) : bool :=
  match s with
  | EmptyString => true
  | String c s' => is_space c && all_space s'
  end.

(** [s.isspace()]: at least one character, all of them whitespace. *)
Definition isspace (s : string) : bool :=
  match s with
  | EmptyString => false
  | String _ _ => all_space s
  end.

(** [s[:n]] *)
Fixpoint take (n : nat) (s : string) : string :=
  match n, s with
  | S n', String c s' => String c (take n' s')
  | _, _ => EmptyString
  end.

(** [s[n:]] *)
Fixpoint drop (n : nat) (s : string) : string :=
  match n, s with
  | S n', String _ s' => drop n' s'
  | _, _ => s
  end.

Fixpoint lstrip (s : string) : string :=
  match s with
  | String c s' => if is_space c then lstrip s' else s
  | EmptyString => EmptyString
  end.

Definition rstrip (s : string) : string :=
  String.rev (lstrip (String.rev s)).

(** [s.strip()] *)
Definition strip (s : string) : string := rstrip (lstrip s).

(** Leading whitespace run of [s] and what follows it. *)
Fixpoint span_space (s : string) : string * string :=
  match s with
  | String c s' =>
      if is_space c then let '(ws, r) := span_space s' in (String c ws, r)
      else (EmptyString, s)
  | EmptyString => (EmptyString, EmptyString)
  end.

(** [sub in s] *)
Fixpoint contains (sub s : string) : bool :=
  String.prefix sub s
  || match s with
     | EmptyString => false
     | String _ s' => contains sub s'
     end.

(** [s.index(c)] for a one-character needle: [None] is Python's
    [ValueError]. *)
Fixpoint index (c : ascii) (s : string) : option nat :=
  match s with
  | EmptyString => None
  | String d s' => if Ascii.eqb c d then Some O else S <$> index c s'
  end.

Fixpoint splitlines_go (cur : string) (s : string) : list string :=
  match s with
  | EmptyString =>
      match cur with EmptyString => [] | _ => [String.rev cur] end
  | String c s' =>
      if Ascii.eqb c CR then
        match s' with
        | String d s'' =>
            if Ascii.eqb d LF then String.rev cur :: splitlines_go EmptyString s''
            else String.rev cur :: splitlines_go EmptyString s'
        | EmptyString => [String.rev cur]
        end
      else if is_linebreak c then String.rev cur :: splitlines_go EmptyString s'
      else splitlines_go (String c cur) s'
  end.

(** [s.splitlines()] *)
Definition splitlines (s : string) : list string :=
  splitlines_go EmptyString s.

(** [s.replace(" = ", " == ")] *)
Fixpoint replace_eq (s : string) : string :=
  match s with
  | String " " (String "=" (String " " rest)) => " == " +:+ replace_eq rest
  | String c rest => String c (replace_eq rest)
  | EmptyString => EmptyString
  end.

(** ["\n".join(ls)] *)
Fixpoint unlines (ls : list string) : string :=
  match ls with
  | [] => EmptyString
  | [l] => l
  | l :: ls' => l +:+ nl +:+ unlines ls'
  end.

(** [str(n)] for an [int]. *)
Definition str_of_Z (n : Z) : string := NilZero.string_of_int (Z.to_int n).

End PyStr.

(** ** The three regular expressions of the parser

    Each function is [re.match] (anchored at the start of the line, free at
    its end) for one pattern of the source, and returns the groups the source
    reads.  A line holds no line boundary, so [.] matches every character of
    it. *)

Module Regex.
Import PyStr.

(** The exception classes of lines 24 to 45.  [slycot_error_map] (lines 114
    to 116) maps the name of each class to the class; here a definition term
    is read as the class at once. *)
Inductive error_class := SlycotError | SlycotParameterError | SlycotArithmeticError.

Definition class_name (k : error_class) : string :=
  match k with
  | SlycotError => "SlycotError"
  | SlycotParameterError => "SlycotParameterError"
  | SlycotArithmeticError => "SlycotArithmeticError"
  end.

(** The pattern of line 140: any whitespace (group 1), one of the three class
    names (group 2), then [ : e].  The whitespace run is followed by [S], so
    group 1 is the whole leading run; the pattern tries the names in the
    order below. *)
Definition ematch (l : string) : option (string * error_class) :=
  let '(ws, r) := span_space l in
  pair ws <$> List.find (fun k => String.prefix (class_name k +:+ " : e") r)
                [SlycotParameterError; SlycotArithmeticError; SlycotError].

(** Splits [s] at its last colon: the greedy "anything, then a colon" of the
    guard pattern. *)
Fixpoint split_last_colon (s : string) : option (string * string) :=
  match s with
  | EmptyString => None
  | String c s' =>
      match split_last_colon s' with
      | Some (a, b) => Some (String c a, b)
      | None => if Ascii.eqb c ":" then Some (EmptyString, s') else None
      end
  end.

(** The pattern of line 148: at least [k] whitespace characters (group 1), a
    colon, anything (group 2), a colon, any whitespace, anything (group 3).
    The whitespace run must be followed by a colon, so it is the whole leading
    run; group 2, being greedy, reaches to the last colon of the line; group 3
    is what follows that colon, less its leading whitespace. *)
Definition imatch (k : nat) (l : string) : option (string * string * string) :=
  let '(ws, r) := span_space l in
  if (k <=? String.length ws)%nat then
    match r with
    | String ":" r' =>
        match split_last_colon r' with
        | Some (spec, tail) => Some (ws, spec, lstrip tail)
        | None => None
        end
    | _ => None
    end
  else None.

(** The pattern of line 170: at least [k] whitespace characters (group 1,
    greedy), then anything (group 2). *)
Definition mmatch (k : nat) (l : string) : option (string * string) :=
  let '(ws, r) := span_space l in
  if (k <=? String.length ws)%nat then Some (ws, r) else None.

End Regex.

(** ** Python values and exceptions *)

Module Py.
Export Regex.

Inductive value :=
| VInt (n : Z)
| VBool (b : bool)
| VFloat (m k : Z)                  (* the finite float [m * 2^k] *)
| VStr (s : string)
| VNone
| VErr (message : string) (info : Z) (* an instance of [SlycotError] *)
| VBuiltins.                         (* the dict of the module [builtins] *)

(** A dict with string keys. *)
Abbreviation dict := (gmap string value).

Inductive exn :=
| Slycot (k : error_class) (message : string) (info : Z)
| RuntimeError (message : string)
| NameError (name : string)
| SyntaxError
| TypeError
| ValueError
| IndexError
| KeyError (key : string)
| OutsideModel.   (* the text left the modelled fragment of Python *)

Inductive result (A : Type) :=
| Val (a : A)
| Exc (e : exn).
Arguments Val {A} a.
Arguments Exc {A} e.

#[global] Instance result_ret : MRet result := @Val.
#[global] Instance result_bind : MBind result := fun A B f r =>
  match r with
  | Val a => f a
  | Exc e => Exc e
  end.
#[global] Instance result_fmap : FMap result := fun A B f r =>
  match r with
  | Val a => Val (f a)
  | Exc e => Exc e
  end.

(** [bool(v)] *)
Definition truthy (v : value) : bool :=
  match v with
  | VInt n => negb (n =? 0)
  | VBool b => b
  | VFloat m _ => negb (m =? 0)
  | VStr s => negb (String.eqb s "")
  | VNone => false
  | VErr _ _ => true
  | VBuiltins => true
  end.

Definition Z_of_bool (b : bool) : Z := if b then 1 else 0.

End Py.

(** ** The expressions [eval] is modelled on

    Names, decimal integers, [True], [False], [None], attribute access,
    unary and binary [+], [-], binary [*], chained comparisons with
    [== != < <= > >=], [not], [and], [or] and parentheses, laid out with
    spaces and tabs.  The lexer gives up ([None]) on every other character or
    keyword, and the parser answers [PBeyond] on a call and on the empty
    tuple, the two well-formed Python forms these tokens can spell beyond that
    grammar. *)

Module PyExpr.
Export Py.

Inductive cmpop := Eq | NotEq | Lt | LtE | Gt | GtE.
Inductive binop := Add | Sub | Mult.

Inductive token :=
| TName (x : string) | TInt (n : Z) | TTrue | TFalse | TNone
| TAnd | TOr | TNot
| TCmp (op : cmpop) | TAssign
| TPlus | TMinus | TStar | TLParen | TRParen | TDot.

Inductive expr :=
| EName (x : string)
| EInt (n : Z)
| EConst (v : value)                       (* [True], [False], [None] *)
| EAttr (e : expr) (a : string)
| EUnary (neg : bool) (e : expr)
| EBin (op : binop) (a b : expr)
| ECompare (a : expr) (rest : chain)       (* [a op1 b op2 c ...] *)
| ENot (e : expr)
| EAnd (a b : expr)
| EOr (a b : expr)
with chain :=
| CEnd
| CNext (op : cmpop) (b : expr) (rest : chain).

Definition is_digit (c : ascii) : bool :=
  let n := nat_of_ascii c in ((48 <=? n) && (n <=? 57))%nat.

Definition is_ident_char (c : ascii) : bool :=
  let n := nat_of_ascii c in
  ((65 <=? n) && (n <=? 90) || (97 <=? n) && (n <=? 122) || (n =? 95))%nat
  || is_digit c.

(** Keywords of Python that the fragment does not cover. *)
Definition other_keywords : list string :=
  ["as"; "assert"; "async"; "await"; "break"; "class"; "continue"; "def";
   "del"; "elif"; "else"; "except"; "finally"; "for"; "from"; "global"; "if";
   "import"; "in"; "is"; "lambda"; "nonlocal"; "pass"; "raise"; "return";
   "try"; "while"; "with"; "yield"].

Definition word_token (w : string) : option token :=
  if String.eqb w "True" then Some TTrue
  else if String.eqb w "False" then Some TFalse
  else if String.eqb w "None" then Some TNone
  else if String.eqb w "and" then Some TAnd
  else if String.eqb w "or" then Some TOr
  else if String.eqb w "not" then Some TNot
  else if existsb (String.eqb w) other_keywords then None
  else Some (TName w).

Fixpoint Z_of_digits (acc : Z) (s : string) : Z :=
  match s with
  | EmptyString => acc
  | String c s' => Z_of_digits (10 * acc + Z.of_nat (nat_of_ascii c - 48)) s'
  end.

(** A decimal literal; one with a leading zero is left out. *)
Definition number_token (w : string) : option token :=
  match w with
  | String "0" (String _ _) => None
  | _ => Some (TInt (Z_of_digits 0 w))
  end.

(** The word being read, its characters in reverse. *)
Inductive pending := PNone | PWord (acc : string) | PNumber (acc : string).

Definition flush (p : pending) (ts : list token) : option (list token) :=
  match p with
  | PNone => Some ts
  | PWord acc => t ← word_token (String.rev acc); Some (t :: ts)
  | PNumber acc => t ← number_token (String.rev acc); Some (t :: ts)
  end.

Definition starts_with (p : ascii -> bool) (s : string) : bool :=
  match s with
  | String c _ => p c
  | EmptyString => false
  end.

Definition is_char (c d : ascii) : bool := Ascii.eqb c d.

Fixpoint lex_go (p : pending) (s : string) : option (list token) :=
  match s with
  | EmptyString => flush p []
  | String c s' =>
      if is_ident_char c then
        match p with
        | PNone => if is_digit c then lex_go (PNumber (String c EmptyString)) s'
                   else lex_go (PWord (String c EmptyString)) s'
        | PWord acc => lex_go (PWord (String c acc)) s'
        | PNumber acc => if is_digit c then lex_go (PNumber (String c acc)) s'
                         else None
        end
      else
        let one t := ts ← lex_go PNone s'; flush p (t :: ts) in
        if is_char c " " || is_char c (ascii_of_nat 9) then
          ts ← lex_go PNone s'; flush p ts
        else if is_char c "(" then one TLParen
        else if is_char c ")" then one TRParen
        else if is_char c "=" then
          match s' with
          | String "=" s'' => ts ← lex_go PNone s''; flush p (TCmp Eq :: ts)
          | _ => one TAssign
          end
        else if is_char c "!" then
          match s' with
          | String "=" s'' => ts ← lex_go PNone s''; flush p (TCmp NotEq :: ts)
          | _ => None
          end
        else if is_char c "<" then
          match s' with
          | String "=" s'' => ts ← lex_go PNone s''; flush p (TCmp LtE :: ts)
          | String "<" _ | String ">" _ => None
          | _ => one (TCmp Lt)
          end
        else if is_char c ">" then
          match s' with
          | String "=" s'' => ts ← lex_go PNone s''; flush p (TCmp GtE :: ts)
          | String ">" _ => None
          | _ => one (TCmp Gt)
          end
        else if is_char c "+" then
          if starts_with (is_char "=") s' then None else one TPlus
        else if is_char c "-" then
          if starts_with (fun d => is_char "=" d || is_char ">" d) s' then None
          else one TMinus
        else if is_char c "*" then
          if starts_with (fun d => is_char "=" d || is_char "*" d) s' then None
          else one TStar
        else if is_char c "." then
          match p with
          | PNumber _ => None
          | _ => if starts_with (fun d => is_digit d || is_char "." d) s' then None
                 else one TDot
          end
        else None
  end.

Definition lex (s : string) : option (list token) := lex_go PNone s.

End PyExpr.

(** ** Parsing and evaluating an expression *)

Module PyEval.
Export PyExpr.

Inductive parsed (A : Type) :=
| POk (a : A) (rest : list token)
| PSyntax      (* no Python expression starts like this *)
| PBeyond.     (* a call, the empty tuple, or the fuel ran out *)
Arguments POk {A} a rest.
Arguments PSyntax {A}.
Arguments PBeyond {A}.

Definition pmap {A B} (f : A -> B) (r : parsed A) : parsed B :=
  match r with
  | POk a rest => POk (f a) rest
  | PSyntax => PSyntax
  | PBeyond => PBeyond
  end.

(** What may follow an atom: attribute references.  An opening parenthesis
    there would start a call. *)
Fixpoint parse_trailers (a : expr) (ts : list token) : parsed expr :=
  match ts with
  | TDot :: TName x :: ts' => parse_trailers (EAttr a x) ts'
  | TDot :: _ => PSyntax
  | TLParen :: _ => PBeyond
  | _ => POk a ts
  end.

(** The grammar of Python's expressions, restricted to the tokens above:
    disjunction, conjunction, inversion, comparison, sum, term, factor,
    primary, atom. *)
Fixpoint parse_disjunction (fuel : nat) (ts : list token) : parsed expr :=
  match fuel with
  | O => PBeyond
  | S f =>
      match parse_conjunction f ts with
      | POk a (TOr :: ts') => pmap (EOr a) (parse_disjunction f ts')
      | r => r
      end
  end
with parse_conjunction (fuel : nat) (ts : list token) : parsed expr :=
  match fuel with
  | O => PBeyond
  | S f =>
      match parse_inversion f ts with
      | POk a (TAnd :: ts') => pmap (EAnd a) (parse_conjunction f ts')
      | r => r
      end
  end
with parse_inversion (fuel : nat) (ts : list token) : parsed expr :=
  match fuel with
  | O => PBeyond
  | S f =>
      match ts with
      | TNot :: ts' => pmap ENot (parse_inversion f ts')
      | _ =>
          match parse_sum f ts with
          | POk a rest =>
              match parse_compare_rest f rest with
              | POk CEnd rest' => POk a rest'
              | POk ops rest' => POk (ECompare a ops) rest'
              | PSyntax => PSyntax
              | PBeyond => PBeyond
              end
          | r => r
          end
      end
  end
with parse_compare_rest (fuel : nat) (ts : list token) : parsed chain :=
  match fuel with
  | O => PBeyond
  | S f =>
      match ts with
      | TCmp op :: ts' =>
          match parse_sum f ts' with
          | POk b rest => pmap (CNext op b) (parse_compare_rest f rest)
          | PSyntax => PSyntax
          | PBeyond => PBeyond
          end
      | _ => POk CEnd ts
      end
  end
with parse_sum (fuel : nat) (ts : list token) : parsed expr :=
  match fuel with
  | O => PBeyond
  | S f =>
      match parse_term f ts with
      | POk a rest => parse_sum_rest f a rest
      | r => r
      end
  end
with parse_sum_rest (fuel : nat) (a : expr) (ts : list token) : parsed expr :=
  match fuel with
  | O => PBeyond
  | S f =>
      match ts with
      | TPlus :: ts' =>
          match parse_term f ts' with
          | POk b rest => parse_sum_rest f (EBin Add a b) rest
          | r => r
          end
      | TMinus :: ts' =>
          match parse_term f ts' with
          | POk b rest => parse_sum_rest f (EBin Sub a b) rest
          | r => r
          end
      | _ => POk a ts
      end
  end
with parse_term (fuel : nat) (ts : list token) : parsed expr :=
  match fuel with
  | O => PBeyond
  | S f =>
      match parse_factor f ts with
      | POk a rest => parse_term_rest f a rest
      | r => r
      end
  end
with parse_term_rest (fuel : nat) (a : expr) (ts : list token) : parsed expr :=
  match fuel with
  | O => PBeyond
  | S f =>
      match ts with
      | TStar :: ts' =>
          match parse_factor f ts' with
          | POk b rest => parse_term_rest f (EBin Mult a b) rest
          | r => r
          end
      | _ => POk a ts
      end
  end
with parse_factor (fuel : nat) (ts : list token) : parsed expr :=
  match fuel with
  | O => PBeyond
  | S f =>
      match ts with
      | TMinus :: ts' => pmap (EUnary true) (parse_factor f ts')
      | TPlus :: ts' => pmap (EUnary false) (parse_factor f ts')
      | _ =>
          match parse_atom f ts with
          | POk a rest => parse_trailers a rest
          | r => r
          end
      end
  end
with parse_atom (fuel : nat) (ts : list token) : parsed expr :=
  match fuel with
  | O => PBeyond
  | S f =>
      match ts with
      | TName x :: ts' => POk (EName x) ts'
      | TInt n :: ts' => POk (EInt n) ts'
      | TTrue :: ts' => POk (EConst (VBool true)) ts'
      | TFalse :: ts' => POk (EConst (VBool false)) ts'
      | TNone :: ts' => POk (EConst VNone) ts'
      | TLParen :: TRParen :: _ => PBeyond
      | TLParen :: ts' =>
          match parse_disjunction f ts' with
          | POk a (TRParen :: rest) => POk a rest
          | POk _ _ => PSyntax
          | r => r
          end
      | _ => PSyntax
      end
  end.

(** A whole expression: nothing may follow it. *)
Definition parse (ts : list token) : parsed expr :=
  match parse_disjunction (12 * S (length ts)) ts with
  | POk a [] => POk a []
  | POk _ _ => PSyntax
  | r => r
  end.

(** Comparison of two numbers given as [m * 2^k]. *)
Definition compare_dyadic (m1 k1 m2 k2 : Z) : comparison :=
  let k := Z.min k1 k2 in
  (m1 * 2 ^ (k1 - k)) ?= (m2 * 2 ^ (k2 - k)).

Definition holds (op : cmpop) (c : comparison) : bool :=
  match op, c with
  | Eq, Datatypes.Eq | LtE, Datatypes.Eq | GtE, Datatypes.Eq => true
  | NotEq, Datatypes.Lt | Lt, Datatypes.Lt | LtE, Datatypes.Lt => true
  | NotEq, Datatypes.Gt | Gt, Datatypes.Gt | GtE, Datatypes.Gt => true
  | _, _ => false
  end.

(** A number as [m * 2^k]: [int], [bool] (a subclass of [int]) and [float]
    compare with one another by their exact values. *)
Definition as_number (v : value) : option (Z * Z) :=
  match v with
  | VInt n => Some (n, 0)
  | VBool b => Some (Z_of_bool b, 0)
  | VFloat m k => Some (m, k)
  | _ => None
  end.

Definition as_int (v : value) : option Z :=
  match v with
  | VInt n => Some n
  | VBool b => Some (Z_of_bool b)
  | _ => None
  end.

(** [a op b] for one comparison operator.  Operands of unrelated types are
    unequal, and ordering them is a [TypeError]; comparisons of an exception
    object or of the builtins dict are left out. *)
Definition compare_values (op : cmpop) (a b : value) : result bool :=
  let unrelated :=
    match op with
    | Eq => Val false
    | NotEq => Val true
    | _ => Exc TypeError
    end in
  match a, b with
  | VErr _ _, _ | _, VErr _ _ | VBuiltins, _ | _, VBuiltins => Exc OutsideModel
  | VStr s, VStr t => Val (holds op (String.compare s t))
  | VNone, VNone =>
      match op with
      | Eq => Val true
      | NotEq => Val false
      | _ => Exc TypeError
      end
  | _, _ =>
      match as_number a, as_number b with
      | Some (m1, k1), Some (m2, k2) => Val (holds op (compare_dyadic m1 k1 m2 k2))
      | _, _ => unrelated
      end
  end.

Definition arith (op : binop) (x y : Z) : Z :=
  match op with
  | Add => x + y
  | Sub => x - y
  | Mult => x * y
  end.

Section Eval.

(** The names bound in the module [builtins] of the running interpreter:
    [eval] looks a name up there when the globals dict does not hold it. *)
Variable builtin_name : string -> bool.

Definition lookup_name (globals : dict) (x : string) : result value :=
  match globals !! x with
  | Some v => Val v
  | None =>
      match globals !! "__builtins__" with
      | Some VBuiltins => if builtin_name x then Exc OutsideModel else Exc (NameError x)
      | _ => Exc OutsideModel
      end
  end.

Fixpoint eval_expr (globals : dict) (e : expr) : result value :=
  match e with
  | EName x => lookup_name globals x
  | EInt n => Val (VInt n)
  | EConst v => Val v
  | EAttr e' a =>
      v ← eval_expr globals e';
      match v with
      | VErr _ info => if String.eqb a "info" then Val (VInt info) else Exc OutsideModel
      | _ => Exc OutsideModel
      end
  | EUnary neg e' =>
      v ← eval_expr globals e';
      match v with
      | VInt _ | VBool _ =>
          match as_int v with
          | Some n => Val (VInt (if neg then - n else n))
          | None => Exc OutsideModel
          end
      | VFloat _ _ => Exc OutsideModel
      | _ => Exc TypeError
      end
  | EBin op a b =>
      va ← eval_expr globals a;
      vb ← eval_expr globals b;
      match as_int va, as_int vb with
      | Some x, Some y => Val (VInt (arith op x y))
      | _, _ => Exc OutsideModel
      end
  | ECompare a rest => va ← eval_expr globals a; eval_chain globals va rest
  | ENot e' => v ← eval_expr globals e'; Val (VBool (negb (truthy v)))
  | EAnd a b => va ← eval_expr globals a; if truthy va then eval_expr globals b else Val va
  | EOr a b => va ← eval_expr globals a; if truthy va then Val va else eval_expr globals b
  end
with eval_chain (globals : dict) (left : value) (c : chain) : result value :=
  match c with
  | CEnd => Val (VBool true)
  | CNext op b rest =>
      vb ← eval_expr globals b;
      ok ← compare_values op left vb;
      if ok : bool then eval_chain globals vb rest else Val (VBool false)
  end.

(** [eval(source, globals)], once [globals] holds [__builtins__]. *)
Definition py_eval (source : string) (globals : dict) : result value :=
  match lex source with
  | None => Exc OutsideModel
  | Some ts =>
      match parse ts with
      | POk e _ => eval_expr globals e
      | PSyntax => Exc SyntaxError
      | PBeyond => Exc OutsideModel
      end
  end.

End Eval.

(** [eval] inserts a reference to the builtins into a globals dict that has
    no [__builtins__], before it parses the source. *)
Definition with_builtins (globals : dict) : dict :=
  match globals !! "__builtins__" with
  | Some _ => globals
  | None => <["__builtins__" := VBuiltins]> globals
  end.

End PyEval.

(** ** [str.format]

    Modelled for templates made of literal text, doubled braces and
    replacement fields [{name}], [{name.attr}], each with an optional format
    specification; a specification is empty or [[width][.precision]g] applied
    to a float.  Anything else is [OutsideModel]. *)

Module PyFormat.
Export PyEval.
Import PyStr.

Fixpoint rstrip_zeros_rev (s : string) : string :=
  match s with
  | String "0" s' => rstrip_zeros_rev s'
  | _ => s
  end.

(** Drops the trailing zeros of a run of digits. *)
Definition rstrip_zeros (s : string) : string :=
  String.rev (rstrip_zeros_rev (String.rev s)).

Fixpoint repeat_char (c : ascii) (n : nat) : string :=
  match n with
  | O => EmptyString
  | S n' => String c (repeat_char c n')
  end.

(** [s.rjust(width)] *)
Definition rjust (width : nat) (s : string) : string :=
  repeat_char " " (width - String.length s) +:+ s.

(** Rounds [n / d] to the nearest integer, ties to even ([0 < d]). *)
Definition round_half_even (n d : Z) : Z :=
  let q := n / d in
  let r := n mod d in
  match 2 * r ?= d with
  | Datatypes.Lt => q
  | Datatypes.Gt => q + 1
  | Datatypes.Eq => if Z.even q then q else q + 1
  end.

(** The least [j >= from] with [den <= num * 10^j], searched over [fuel]
    candidates. *)
Fixpoint first_scale (fuel : nat) (num den from : Z) : Z :=
  match fuel with
  | O => from
  | S f => if den <=? num * 10 ^ from then from else first_scale f num den (from + 1)
  end.

(** The decimal exponent of the positive rational [num / den]: the [x] with
    [10^x <= num / den < 10^(x+1)]. *)
Definition decimal_exponent (num den : Z) : Z :=
  if den <=? num then Z.of_nat (String.length (str_of_Z (num / den))) - 1
  else - first_scale (S (Z.to_nat (Z.log2 den))) num den 1.

(** A fraction part, with its point, once the trailing zeros are gone. *)
Definition fraction (digits : string) : string :=
  match rstrip_zeros digits with
  | EmptyString => EmptyString
  | f => "." +:+ f
  end.

(** [format(x, ".{p}g")] for the float [x = m * 2^k]: [x] is rounded to [p]
    significant digits (a precision of 0 counts as 1) and, with [x10] the
    decimal exponent of the rounded number, written in fixed notation when
    [-4 <= x10 < p] and in scientific notation otherwise, trailing zeros
    removed. *)
Definition format_g (precision : nat) (m k : Z) : string :=
  if m =? 0 then "0"
  else
    let p := Z.of_nat (Nat.max 1 precision) in
    let num := Z.abs m * 2 ^ Z.max 0 k in
    let den := 2 ^ Z.max 0 (- k) in
    let x0 := decimal_exponent num den in
    let s := p - 1 - x0 in
    let d0 := round_half_even (num * 10 ^ Z.max 0 s) (den * 10 ^ Z.max 0 (- s)) in
    let '(d, x10) := if 10 ^ p <=? d0 then (d0 / 10, x0 + 1) else (d0, x0) in
    let digits := str_of_Z d in
    let body :=
      if (-4 <=? x10) && (x10 <? p) then
        if 0 <=? x10 then
          take (Z.to_nat (x10 + 1)) digits +:+ fraction (drop (Z.to_nat (x10 + 1)) digits)
        else
          "0" +:+ fraction (repeat_char "0" (Z.to_nat (- x10 - 1)) +:+ digits)
      else
        let e := str_of_Z (Z.abs x10) in
        take 1 digits +:+ fraction (drop 1 digits)
        +:+ "e" +:+ (if x10 <? 0 then "-" else "+")
        +:+ (if (String.length e <? 2)%nat then "0" +:+ e else e)
    in
    (if m <? 0 then "-" else "") +:+ body.

(** The characters of [s] up to the first one satisfying [stop], and the
    rest, that character included. *)
Fixpoint break_at (stop : ascii -> bool) (s : string) : string * string :=
  match s with
  | EmptyString => (EmptyString, EmptyString)
  | String c s' =>
      if stop c then (EmptyString, s)
      else let '(a, b) := break_at stop s' in (String c a, b)
  end.

Fixpoint all_digits (s : string) : bool :=
  match s with
  | EmptyString => true
  | String c s' => is_digit c && all_digits s'
  end.

Definition nat_of_digits (s : string) : nat := Z.to_nat (Z_of_digits 0 s).

(** A specification [[width][.precision]g]: the width and the precision, 6
    when it is not given. *)
Definition parse_g_spec (spec : string) : option (nat * nat) :=
  let '(width, r) := break_at (fun c => negb (is_digit c)) spec in
  if starts_with (is_char "0") width then None
  else
    match r with
    | String "g" EmptyString => Some (nat_of_digits width, 6%nat)
    | String "." r' =>
        let '(prec, r'') := break_at (fun c => negb (is_digit c)) r' in
        match prec, r'' with
        | String _ _, String "g" EmptyString =>
            Some (nat_of_digits width, nat_of_digits prec)
        | _, _ => None
        end
    | _ => None
    end.

(** [format(v, spec)] *)
Definition format_value (v : value) (spec : string) : result string :=
  match spec with
  | EmptyString =>
      match v with
      | VInt n => Val (str_of_Z n)
      | VBool b => Val (if b then "True" else "False")
      | VStr s => Val s
      | VNone => Val "None"
      | _ => Exc OutsideModel
      end
  | _ =>
      match v, parse_g_spec spec with
      | VFloat m k, Some (width, precision) => Val (rjust width (format_g precision m k))
      | _, _ => Exc OutsideModel
      end
  end.

(** One replacement field, the text between its braces.  A field without a
    name, or named by a number, asks for a positional argument: there is
    none, and the lookup raises [IndexError].  A number too long for an
    index makes [str.format] raise [ValueError] instead, at a length that
    depends on the platform: only numbers of at most 9 digits, which are
    indices on every platform, are modelled. *)
Definition format_field (kwargs : dict) (field : string) : result string :=
  let special c :=
    is_char "{" c || is_char "[" c || is_char "]" c || is_char "!" c in
  if existsb special (list_ascii_of_string field) then Exc OutsideModel
  else
    let '(path, r) := break_at (is_char ":") field in
    let spec := drop 1 r in
    let '(name, attr) := break_at (is_char ".") path in
    if all_digits name then
      if (String.length name <=? 9)%nat then Exc IndexError else Exc OutsideModel
    else
      match kwargs !! name with
      | None => Exc (KeyError name)
      | Some v =>
          match attr with
          | EmptyString => format_value v spec
          | _ =>
              match v with
              | VErr _ info =>
                  if String.eqb attr ".info" then format_value (VInt info) spec
                  else Exc OutsideModel
              | _ => Exc OutsideModel
              end
          end
      end.

(** [template.format( **kwargs )]: the fields are filled from left to right.
    [field] is [None] in literal text and holds the characters read so far,
    in reverse, inside a replacement field. *)
Fixpoint format_go (kwargs : dict) (field : option string) (s : string) : result string :=
  match s with
  | EmptyString =>
      match field with
      | None => Val EmptyString
      | Some _ => Exc OutsideModel
      end
  | String c s' =>
      match field with
      | Some acc =>
          if is_char "}" c then
            text ← format_field kwargs (String.rev acc);
            rest ← format_go kwargs None s';
            Val (text +:+ rest)
          else format_go kwargs (Some (String c acc)) s'
      | None =>
          if is_char "{" c then
            match s' with
            | String d s'' =>
                if is_char "{" d then String c <$> format_go kwargs None s''
                else format_go kwargs (Some EmptyString) s'
            | EmptyString => Exc OutsideModel
            end
          else if is_char "}" c then
            match s' with
            | String d s'' =>
                if is_char "}" d then String c <$> format_go kwargs None s''
                else Exc OutsideModel
            | EmptyString => Exc OutsideModel
            end
          else String c <$> format_go kwargs None s'
      end
  end.

Definition format (template : string) (kwargs : dict) : result string :=
  format_go kwargs None template.

End PyFormat.

(** ** [raise_if_slycot_error] *)

Module Exceptions.
Export PyFormat.
Import PyStr.

(** How a call ends. *)
Inductive outcome :=
| Returns                (* [None] is returned *)
| Raises (e : exn).

(** What a call leaves behind: the dict [checkvars], which the caller
    shares; the predicates of the guards that [eval] was called for, as the
    docstring writes them, in the order of the calls; the lines written by
    [print]. *)
Record world := World {
  checkvars : dict;
  evaluated : list string;
  stdout : list string
}.

(** How the scan of the Raises section ends. *)
Inductive scan_end :=
| SectionClosed                                (* line 136: [return None] *)
| NoRule                                       (* the lines ran out *)
| Rule (k : error_class) (message : string)    (* a guard held *)
| Failed (e : exn).

(** The definition term in force: [slycot_error] and [error_indent]. *)
Abbreviation header := (option (error_class * nat)).

Definition print (l : string) (w : world) : world :=
  World (checkvars w) (evaluated w) (stdout w ++ [l]).

(** Lines 176 to 179: the lines of the message body. *)
Fixpoint message_body (body_indent : nat) (docline : list string) : string :=
  match docline with
  | [] => EmptyString
  | l :: docline' =>
      if negb (String.eqb l "") && negb (isspace (take body_indent l)) then EmptyString
      else drop body_indent l +:+ nl +:+ message_body body_indent docline'
  end.

(** Lines 168 to 179: the message of a guard that holds, [docline] being
    the lines after the guard's.  When [docline] is exhausted [next] raises
    [StopIteration], which line 181 catches: the message is the text that
    follows the guard on its line. *)
Definition message_of (infospec_indent : nat) (first : string) (docline : list string) : string :=
  let message := strip first +:+ nl in
  match docline with
  | [] => message
  | l :: docline' =>
      match mmatch (S infospec_indent) l with
      | None => message
      | Some (ws, text) =>
          message +:+ text +:+ nl +:+ message_body (String.length ws) docline'
      end
  end.

(** Line 188. *)
Definition illegal_value (name : string) : string :=
  "The following argument had an illegal value: " +:+ name.

(** Lines 187 to 190. *)
Definition fallback (info : Z) (arg_list : option (list string)) : outcome :=
  match arg_list with
  | Some ((_ :: _) as args) =>
      if info <? 0 then
        match args !! Z.to_nat (- info - 1) with
        | Some name => Raises (Slycot SlycotParameterError (illegal_value name) info)
        | None => Raises IndexError
        end
      else Returns
  | _ => Returns
  end.

(** Lines 121 and 122: the lines after the first one that holds "Raises";
    [None] when [next] raises [StopIteration]. *)
Fixpoint after_raises (docline : list string) : option (list string) :=
  match docline with
  | [] => None
  | l :: docline' => if contains "Raises" l then Some docline' else after_raises docline'
  end.

Section WithBuiltins.

Variable builtin_name : string -> bool.

(** [eval(source, globals)]: the result, and [globals] afterwards.  An
    expression of the modelled kind writes nothing: [eval] itself binds
    [__builtins__], and that is all.  When the result is [Exc OutsideModel]
    the source is not of that kind (it may, as an assignment expression
    does, bind a key of [globals]): the dict paired with that result is not
    a statement about the code, and what is proved of the dict after a call
    is proved of the calls that evaluate no such guard ([in_fragment]
    below). *)
Definition eval (source : string) (globals : dict) : result value * dict :=
  let globals' := with_builtins globals in
  (py_eval builtin_name source globals', globals').

(** Lines 157 to 180: a guard is evaluated.  [continue] is the rest of the
    loop over the lines.  A guard outside the modelled expressions ends the
    modelled run with [Failed OutsideModel], the guard being the last entry
    of [evaluated]: whether the code raises there, or goes on to the next
    line, is not modelled. *)
Definition evaluate_guard (info : Z) (slycot_error : error_class)
    (infospec_indent : nat) (infospec first : string) (docline : list string)
    (w : world) (continue : world -> scan_end * world) : scan_end * world :=
  let infospec_ := replace_eq infospec in
  let '(r, cv) := eval infospec_ (<["e" := VErr "" info]> (checkvars w)) in
  let w' := World cv (evaluated w ++ [infospec]) (stdout w) in
  match r with
  | Exc (NameError _) =>
      (Failed (RuntimeError ("Unknown variable in infospec: " +:+ infospec)), w')
  | Exc SyntaxError =>
      (Failed (RuntimeError ("Invalid infospec: " +:+ infospec)), w')
  | Exc e => (Failed e, w')
  | Val info_eval =>
      if truthy info_eval then
        (Rule slycot_error (message_of infospec_indent first docline), w')
      else continue w'
  end.

(** Line 142 and 143. *)
Definition header_after (h : header) (l : string) : header :=
  match ematch l with
  | Some (ws, name) => Some (name, String.length ws)
  | None => h
  end.

(** Lines 127 to 180: the loop over the lines that follow the underline. *)
Fixpoint scan (info : Z) (section_indent : nat) (h : header) (w : world)
    (docline : list string) : scan_end * world :=
  match docline with
  | [] => (NoRule, w)
  | l :: docline' =>
      let w := print l w in
      if String.eqb (strip l) "" then scan info section_indent h w docline'
      else if negb (isspace (take section_indent l)) then (SectionClosed, w)
      else
        let h := header_after h l in
        match h with
        | None => scan info section_indent h w docline'
        | Some (slycot_error, error_indent) =>
            match imatch (S error_indent) l with
            | None => scan info section_indent h w docline'
            | Some (ws, infospec, first) =>
                let continue w := scan info section_indent h w docline' in
                if String.eqb infospec "e.info = -i" then
                  match checkvars w !! "i" with
                  | None => continue w
                  | Some _ =>
                      evaluate_guard info slycot_error (String.length ws)
                        infospec first docline' w continue
                  end
                else
                  evaluate_guard info slycot_error (String.length ws)
                    infospec first docline' w continue
            end
        end
  end.

(** Lines 118 to 182. *)
Definition scan_docstring (info : Z) (docstring : string) (w : world) : scan_end * world :=
  match after_raises (splitlines docstring) with
  | None => (NoRule, w)
  | Some [] => (NoRule, w)
  | Some (underline :: docline) =>
      match index "-" underline with
      | None => (Failed ValueError, w)
      | Some section_indent => scan info section_indent None w docline
      end
  end.

(** Lines 183 to 190: what the call does once the docstring has been dealt
    with, [cv] being [checkvars] at that point. *)
Definition conclude (info : Z) (arg_list : option (list string))
    (r : scan_end) (cv : dict) : outcome :=
  match r with
  | SectionClosed => Returns
  | Failed e => Raises e
  | Rule slycot_error message =>
      if negb (String.eqb message "") then
        match format message cv with
        | Val text => Raises (Slycot slycot_error (nl +:+ strip text) info)
        | Exc e => Raises e
        end
      else fallback info arg_list
  | NoRule => fallback info arg_list
  end.

(** The function.  The caller's dict comes in as [cv]; the [checkvars] of
    the world that comes out is that dict after the call.  (A caller that
    gives no [checkvars] shares the one dict of the default value with every
    such caller: it comes in as [cv] all the same.)  A docstring that is
    [None] or empty is skipped (line 113). *)
Definition raise_if_slycot_error (info : Z) (arg_list : option (list string))
    (docstring : option string) (cv : dict) : outcome * world :=
  let w0 := World cv [] [] in
  let '(r, w) :=
    match docstring with
    | Some ((String _ _) as doc) => scan_docstring info doc w0
    | _ => (NoRule, w0)
    end in
  (conclude info arg_list r (checkvars w), w).

(** *** The section read in two passes

    The specification describes the parser as producing the guard clauses of
    the section in document order, and the evaluator as taking the first one
    that holds.  These definitions follow that description; the theorems
    below relate them to [scan]. *)

Record guard_clause := Guard {
  clause_class : error_class;
  clause_predicate : string;
  clause_message : string      (* the template, as [message_of] collects it *)
}.

(** How the section ends: with the text, or at a line that is not indented
    as deep as the underline tells. *)
Inductive closing := TextEnd | Dedent.

(** The guard clauses of the lines after the underline.  [i_bound] tells
    whether [checkvars] binds [i]. *)
Fixpoint guard_clauses (i_bound : bool) (section_indent : nat) (h : header)
    (docline : list string) : list guard_clause * closing :=
  match docline with
  | [] => ([], TextEnd)
  | l :: docline' =>
      if String.eqb (strip l) "" then guard_clauses i_bound section_indent h docline'
      else if negb (isspace (take section_indent l)) then ([], Dedent)
      else
        let h := header_after h l in
        match h with
        | None => guard_clauses i_bound section_indent h docline'
        | Some (k, error_indent) =>
            match imatch (S error_indent) l with
            | None => guard_clauses i_bound section_indent h docline'
            | Some (ws, infospec, first) =>
                let '(gs, c) := guard_clauses i_bound section_indent h docline' in
                if String.eqb infospec "e.info = -i" && negb i_bound then (gs, c)
                else
                  (Guard k infospec (message_of (String.length ws) first docline') :: gs, c)
            end
        end
  end.

Definition binds_i (cv : dict) : bool :=
  match cv !! "i" with
  | Some _ => true
  | None => false
  end.

(** The guard clauses of a docstring; [None] when the line after the title
    holds no dash. *)
Definition documented_guards (cv : dict) (docstring : option string)
    : option (list guard_clause * closing) :=
  match docstring with
  | Some ((String _ _) as doc) =>
      match after_raises (splitlines doc) with
      | None => Some ([], TextEnd)
      | Some [] => Some ([], TextEnd)
      | Some (underline :: docline) =>
          section_indent ← index "-" underline;
          Some (guard_clauses (binds_i cv) section_indent None docline)
      end
  | _ => Some ([], TextEnd)
  end.

(** The scope a guard is evaluated in: the caller's bindings, [e] and the
    builtins. *)
Definition eval_scope (info : Z) (cv : dict) : dict :=
  with_builtins (<["e" := VErr "" info]> cv).

Definition guard_value (info : Z) (cv : dict) (predicate : string) : result value :=
  py_eval builtin_name (replace_eq predicate) (eval_scope info cv).

(** The guard evaluates, and to a false value. *)
Definition evaluates_false (info : Z) (cv : dict) (g : guard_clause) : Prop :=
  exists v, guard_value info cv (clause_predicate g) = Val v /\ truthy v = false.

(** The guard evaluates, and to a true value. *)
Definition evaluates_true (info : Z) (cv : dict) (g : guard_clause) : Prop :=
  exists v, guard_value info cv (clause_predicate g) = Val v /\ truthy v = true.

(** The guard is an expression of the modelled kind: its evaluation gives a
    value or raises one of the errors of Python, and writes nothing. *)
Definition in_fragment (info : Z) (cv : dict) (predicate : string) : Prop :=
  guard_value info cv predicate <> Exc OutsideModel.

(** The first guard that does not evaluate to a false value decides; the
    predicates evaluated on the way are listed in order. *)
Fixpoint first_match (info : Z) (cv : dict) (gs : list guard_clause) (c : closing)
    : scan_end * list string :=
  match gs with
  | [] => (match c with TextEnd => NoRule | Dedent => SectionClosed end, [])
  | g :: gs' =>
      let p := clause_predicate g in
      match guard_value info cv p with
      | Val v =>
          if truthy v then (Rule (clause_class g) (clause_message g), [p])
          else let '(r, log) := first_match info cv gs' c in (r, p :: log)
      | Exc (NameError _) =>
          (Failed (RuntimeError ("Unknown variable in infospec: " +:+ p)), [p])
      | Exc SyntaxError => (Failed (RuntimeError ("Invalid infospec: " +:+ p)), [p])
      | Exc e => (Failed e, [p])
      end
  end.

End WithBuiltins.

(** *** What relates a run of [scan] to [first_match] *)

(** The dict after the evaluations listed in [log], from [before]. *)
Definition log_dict (info : Z) (cv before : dict) (log : list string) : dict :=
  match log with
  | [] => before
  | _ => eval_scope info cv
  end.


Definition reached (info : Z) (cv : dict) (w : world) : Prop :=
  checkvars w = cv ∨ checkvars w = eval_scope info cv.

(** What [scan] and [first_match] have in common from a world [w] on. *)
Definition agrees (info : Z) (cv : dict) (w : world)
    (run : scan_end * world) (fm : scan_end * list string) : Prop :=
  run.1 = fm.1
  ∧ evaluated run.2 = evaluated w ++ fm.2
  ∧ checkvars run.2 = log_dict info cv (checkvars w) fm.2.


(** The exceptions the evaluation of an expression raises. *)
Definition raised_by_eval (e : exn) : Prop :=
  match e with
  | NameError _ | TypeError | OutsideModel => True
  | _ => False
  end.

(** The exceptions [str.format] raises. *)
Definition raised_by_format (e : exn) : Prop :=
  match e with
  | IndexError | KeyError _ | OutsideModel => True
  | _ => False
  end.

(** The names an expression refers to. *)
Fixpoint names_of (e : expr) : list string :=
  match e with
  | EName x => [x]
  | EInt _ | EConst _ => []
  | EAttr e' _ | EUnary _ e' | ENot e' => names_of e'
  | EBin _ a b | EAnd a b | EOr a b => names_of a ++ names_of b
  | ECompare a rest => names_of a ++ names_of_chain rest
  end
with names_of_chain (c : chain) : list string :=
  match c with
  | CEnd => []
  | CNext _ b rest => names_of b ++ names_of_chain rest
  end.

(** The names a guard predicate refers to, as [eval] parses it. *)
Definition referenced_names (infospec : string) : list string :=
  match lex (replace_eq infospec) with
  | Some ts =>
      match parse ts with
      | POk e _ => names_of e
      | _ => []
      end
  | None => []
  end.

End Exceptions.

(** ** Inputs used in the examples *)

Module Scenario.
Import PyStr Exceptions.

(** The docstring of [fun] in the example of the source (lines 85 to 96). *)
Definition fun_doc : string := unlines
  ["Example function";
   "";
   "    Raises";
   "    ------";
   "    SlycotArithmeticError : e";
   "        :e.info = 1: Info is 1";
   "        :e.info > 1 and e.info < n:";
   "            Info is {e.info}, which is between 1 and {n}";
   "        :n <= e.info < m:";
   "            {e.info} is between {n} and {m:10.2g}!";
   "    "].

(** [n, m = 4, 1.2e2]: 120.0 is [15 * 2^3]. *)
Definition fun_vars : dict := <["n" := VInt 4]> (<["m" := VFloat 15 3]> ∅).

Definition fun_args : list string := ["a"; "b"; "c"].

(** The guard clauses of [fun_doc]. *)
Definition fun_guards : list guard_clause :=
  [Guard SlycotArithmeticError "e.info = 1" ("Info is 1" +:+ nl);
   Guard SlycotArithmeticError "e.info > 1 and e.info < n"
     (nl +:+ "Info is {e.info}, which is between 1 and {n}" +:+ nl);
   Guard SlycotArithmeticError "n <= e.info < m"
     (nl +:+ "{e.info} is between {n} and {m:10.2g}!" +:+ nl +:+ nl)].

(** A Raises section followed by a line that starts at the margin. *)
Definition closed_doc : string := unlines
  ["Example function";
   "";
   "    Raises";
   "    ------";
   "    SlycotArithmeticError : e";
   "        :e.info = 1: Info is 1";
   "";
   "See the SLICOT manual."].

(** A Raises section that starts at the margin. *)
Definition margin_doc : string := unlines
  ["Raises";
   "------";
   "SlycotArithmeticError : e";
   "    :e.info = 1: Info is 1"].

(** A Raises title whose next line is no underline. *)
Definition no_underline_doc : string := unlines
  ["Example function";
   "";
   "    Raises";
   "    SlycotArithmeticError : e";
   "        :e.info = 1: Info is 1"].

(** A guard that names [n], which no caller binds here. *)
Definition short_circuit_doc : string := unlines
  ["    Raises";
   "    ------";
   "    SlycotArithmeticError : e";
   "        :e.info > 1 and e.info < n: Info is between 1 and {n}"].

(** A guard that is no expression. *)
Definition invalid_guard_doc : string := unlines
  ["    Raises";
   "    ------";
   "    SlycotArithmeticError : e";
   "        :e.info = 1 2: Info is 1 or 2"].

(** Two guards that hold together for a status above 1. *)
Definition overlap_doc : string := unlines
  ["    Raises";
   "    ------";
   "    SlycotArithmeticError : e";
   "        :e.info > 0: positive";
   "    SlycotParameterError : e";
   "        :e.info > 1: above one"].

(** The convention for an illegal argument, and a caller that binds [i]. *)
Definition reserved_doc : string := unlines
  ["    Raises";
   "    ------";
   "    SlycotParameterError : e";
   "        :e.info = -i: argument {i} is illegal"].

Definition reserved_line : string := "        :e.info = -i: argument {i} is illegal".

(** Some of the names of [builtins]; the theorems hold whatever the table. *)
Definition some_builtins : list string :=
  ["abs"; "all"; "any"; "bool"; "divmod"; "float"; "int"; "len"; "max"; "min";
   "pow"; "round"; "sum"; "ArithmeticError"; "ValueError"].

Definition builtin_name (x : string) : bool := existsb (String.eqb x) some_builtins.

End Scenario.

(** ** The exception classes and the handlers that catch them *)

Module Classes.
Import Exceptions.

(** The classes of lines 24 to 45, and the built-in classes a call can
    raise or that they derive from. *)
Inductive py_class :=
| CBaseException | CException
| CRuntimeError | CValueError | CArithmeticError
| CLookupError | CIndexError | CKeyError
| CNameError | CSyntaxError | CTypeError
| CSlycot (k : error_class).

#[global] Instance error_class_eq_dec : EqDecision error_class.
Proof. solve_decision. Defined.
#[global] Instance py_class_eq_dec : EqDecision py_class.
Proof. solve_decision. Defined.

(** The bases in the class statements: lines 24, 32 and 42 for the three
    classes of the source. *)
Definition bases (c : py_class) : list py_class :=
  match c with
  | CBaseException => []
  | CException => [CBaseException]
  | CRuntimeError | CValueError | CArithmeticError | CLookupError
  | CNameError | CSyntaxError | CTypeError => [CException]
  | CIndexError | CKeyError => [CLookupError]
  | CSlycot SlycotError => [CRuntimeError]
  | CSlycot SlycotParameterError => [CSlycot SlycotError; CValueError]
  | CSlycot SlycotArithmeticError => [CSlycot SlycotError; CArithmeticError]
  end.

Fixpoint issubclass_within (depth : nat) (c d : py_class) : bool :=
  bool_decide (c = d)
  || match depth with
     | O => false
     | S depth' => existsb (fun b => issubclass_within depth' b d) (bases c)
     end.

(** [issubclass(c, d)]: no chain of bases is longer than 4. *)
Definition issubclass (c d : py_class) : bool := issubclass_within 4 c d.

(** The class of an exception object.  [OutsideModel] stands for whatever
    the code raises, if it raises, where the model does not follow it: its
    class is not known. *)
Definition class_of (e : exn) : option py_class :=
  match e with
  | Slycot k _ _ => Some (CSlycot k)
  | RuntimeError _ => Some CRuntimeError
  | NameError _ => Some CNameError
  | SyntaxError => Some CSyntaxError
  | TypeError => Some CTypeError
  | ValueError => Some CValueError
  | IndexError => Some CIndexError
  | KeyError _ => Some CKeyError
  | OutsideModel => None
  end.

(** Whether [except handler:] catches [e]; [None] when the class of [e] is
    not known. *)
Definition caught_by (handler : py_class) (e : exn) : option bool :=
  c ← class_of e; Some (issubclass c handler).

(** [e.info], which line 29 sets on every instance of the three classes. *)
Definition info_of (e : exn) : option Z :=
  match e with
  | Slycot _ _ info => Some info
  | _ => None
  end.

End Classes.

(** ** The lines the loop of line 127 runs over *)

Module Section_lines.
Import PyStr Exceptions.

(** The lines after the underline, for a docstring that has a title line
    and an underline with a dash; no line otherwise. *)
Definition section_lines (docstring : option string) : list string :=
  match docstring with
  | Some ((String _ _) as doc) =>
      match after_raises (splitlines doc) with
      | Some (underline :: docline) =>
          match index "-" underline with
          | Some _ => docline
          | None => []
          end
      | _ => []
      end
  | _ => []
  end.

End Section_lines.

(** ** Shapes of templates *)

Module Templates.
Import PyFormat.

(** Text without a brace: [str.format] copies it. *)
Definition plain_text (s : string) : bool :=
  forallb (fun c => negb (is_char "{" c || is_char "}" c)) (list_ascii_of_string s).

(** A field name that is a key and nothing more: not a number, and without
    attribute, index, conversion or format specification. *)
Definition key_name (name : string) : bool :=
  negb (all_digits name)
  && forallb (fun c => negb (is_char "{" c || is_char "}" c || is_char "[" c
                             || is_char "]" c || is_char "!" c || is_char ":" c
                             || is_char "." c))
       (list_ascii_of_string name).

End Templates.

(** ** More inputs for the examples *)

Module More_inputs.
Import PyStr Exceptions.

(** A Raises section whose guard stands under no definition term. *)
Definition headerless_doc : string := unlines
  ["    Raises";
   "    ------";
   "        :e.info = 1: Info is 1"].

(** A rule whose template names [k]. *)
Definition template_doc : string := unlines
  ["    Raises";
   "    ------";
   "    SlycotArithmeticError : e";
   "        :e.info = 1: Step {k} failed"].

(** The convention for an illegal argument after a guard of the routine. *)
Definition reserved_second_doc : string := unlines
  ["    Raises";
   "    ------";
   "    SlycotArithmeticError : e";
   "        :e.info = 1: Info is 1";
   "    SlycotParameterError : e";
   "        :e.info = -i: argument {i} is illegal"].

(** A docstring without a Raises section. *)
Definition plain_doc : string := unlines
  ["Example function";
   "";
   "    Returns";
   "    -------";
   "    None"].

End More_inputs.

(** * Properties *)

Import PyStr Exceptions.

(** ** The primitives on small inputs *)

Example splitlines_blank_line :
  splitlines ("a" +:+ nl +:+ nl +:+ "b" +:+ nl) = ["a"; ""; "b"].
Proof. reflexivity. Qed.

Example splitlines_crlf :
  splitlines (String CR (String LF "x")) = [""; "x"].
Proof. reflexivity. Qed.

Example isspace_empty : isspace (take 0 "Raises") = false.
Proof. reflexivity. Qed.

Example replace_eq_once : replace_eq "e.info = 1" = "e.info == 1".
Proof. reflexivity. Qed.

Example replace_eq_leaves_comparisons : replace_eq "n <= e.info" = "n <= e.info".
Proof. reflexivity. Qed.

Example ematch_header :
  ematch "    SlycotArithmeticError : e" = Some ("    ", SlycotArithmeticError).
Proof. reflexivity. Qed.

Example ematch_other_name : ematch "    SlycotValueError : e" = None.
Proof. reflexivity. Qed.

Example imatch_guard :
  imatch 5 "        :e.info = 1: Info is 1" = Some ("        ", "e.info = 1", "Info is 1").
Proof. reflexivity. Qed.

(** The predicate reaches to the last colon of the line. *)
Example imatch_greedy :
  imatch 5 "        :e.info = 1: Info: 1" = Some ("        ", "e.info = 1: Info", "1").
Proof. reflexivity. Qed.

Example imatch_too_shallow : imatch 5 "    :e.info = 1: Info is 1" = None.
Proof. reflexivity. Qed.

Example mmatch_body : mmatch 9 "            Info" = Some ("            ", "Info").
Proof. reflexivity. Qed.

Example py_eval_chain :
  py_eval Scenario.builtin_name "n <= e.info < m" (eval_scope 5 Scenario.fun_vars)
  = Val (VBool true).
Proof. vm_compute. reflexivity. Qed.

Example py_eval_and_is_lazy :
  py_eval Scenario.builtin_name "e.info > 1 and e.info < n" (eval_scope 1 ∅)
  = Val (VBool false).
Proof. vm_compute. reflexivity. Qed.

Example py_eval_name_error :
  py_eval Scenario.builtin_name "e.info == -i" (eval_scope 1 ∅) = Exc (NameError "i").
Proof. vm_compute. reflexivity. Qed.

Example py_eval_syntax_error :
  py_eval Scenario.builtin_name "e.info =1" (eval_scope 1 ∅) = Exc SyntaxError.
Proof. vm_compute. reflexivity. Qed.

Example py_eval_call_is_outside :
  py_eval Scenario.builtin_name "abs(e.info) == 1" (eval_scope 1 ∅) = Exc OutsideModel.
Proof. vm_compute. reflexivity. Qed.

Example format_g_120 : format_g 2 15 3 = "1.2e+02".
Proof. vm_compute. reflexivity. Qed.

Example format_g_default_precision : format_g 6 15 3 = "120".
Proof. vm_compute. reflexivity. Qed.

(** 0.125 lies halfway between 0.12 and 0.13: the even digit wins. *)
Example format_g_half_even : format_g 2 1 (-3) = "0.12".
Proof. vm_compute. reflexivity. Qed.

Example format_g_small : format_g 6 1 (-20) = "9.53674e-07".
Proof. vm_compute. reflexivity. Qed.

Example format_fields :
  format "{e.info} is between {n} and {m:10.2g}!" (eval_scope 5 Scenario.fun_vars)
  = Val "5 is between 4 and    1.2e+02!".
Proof. vm_compute. reflexivity. Qed.

Example format_missing_key : format "{k}" (eval_scope 5 ∅) = Exc (KeyError "k").
Proof. vm_compute. reflexivity. Qed.

(** ** The scope of the evaluations *)

Section Facts.

Variable builtin_name : string -> bool.

Lemma with_builtins_lookup (g : dict) (k : string) :
  k ≠ "__builtins__" → with_builtins g !! k = g !! k.
Proof.
  intros Hk. unfold with_builtins.
  destruct (g !! "__builtins__"); [done|]. by rewrite lookup_insert_ne.
Qed.

Lemma with_builtins_idem (g : dict) : with_builtins (with_builtins g) = with_builtins g.
Proof.
  unfold with_builtins at 2 3. destruct (g !! "__builtins__") eqn:E.
  - unfold with_builtins. by rewrite E.
  - unfold with_builtins. by rewrite lookup_insert_eq.
Qed.

Lemma eval_scope_e info (cv : dict) : eval_scope info cv !! "e" = Some (VErr "" info).
Proof.
  unfold eval_scope. rewrite with_builtins_lookup by done. apply lookup_insert_eq.
Qed.

Lemma eval_scope_other info (cv : dict) (k : string) :
  k ≠ "e" → k ≠ "__builtins__" → eval_scope info cv !! k = cv !! k.
Proof.
  intros He Hb. unfold eval_scope. rewrite with_builtins_lookup by done.
  by rewrite lookup_insert_ne.
Qed.

Lemma eval_scope_idem info (cv : dict) :
  with_builtins (<["e" := VErr "" info]> (eval_scope info cv)) = eval_scope info cv.
Proof.
  rewrite (insert_id (eval_scope info cv)) by apply eval_scope_e.
  apply with_builtins_idem.
Qed.

Lemma binds_i_eval_scope info (cv : dict) : binds_i (eval_scope info cv) = binds_i cv.
Proof. unfold binds_i. by rewrite eval_scope_other. Qed.

(** The scope of an evaluation does not depend on how many went before. *)
Lemma eval_scope_reached info (cv cv' : dict) :
  cv' = cv ∨ cv' = eval_scope info cv →
  with_builtins (<["e" := VErr "" info]> cv') = eval_scope info cv.
Proof. intros [->| ->]; [done | apply eval_scope_idem]. Qed.

Lemma binds_i_reached info (cv cv' : dict) :
  cv' = cv ∨ cv' = eval_scope info cv → cv' !! "i" = cv !! "i".
Proof. intros [->| ->]; [done | by apply eval_scope_other]. Qed.

Lemma evaluate_guard_agrees info (cv : dict) k ind p first docline w continue gs c :
  reached info cv w →
  (∀ w1, reached info cv w1 → evaluated w1 = evaluated w ++ [p] →
         checkvars w1 = eval_scope info cv →
         agrees info cv w1 (continue w1) (first_match builtin_name info cv gs c)) →
  agrees info cv w
    (evaluate_guard builtin_name info k ind p first docline w continue)
    (first_match builtin_name info cv (Guard k p (message_of ind first docline) :: gs) c).
Proof.
  intros Hw Hk. unfold evaluate_guard, eval. cbn [first_match clause_predicate
    clause_class clause_message]. unfold guard_value.
  rewrite (eval_scope_reached info cv (checkvars w) Hw).
  set (w1 := World (eval_scope info cv) (evaluated w ++ [p]) (stdout w)).
  destruct (py_eval builtin_name (replace_eq p) (eval_scope info cv)) as [v|e].
  - destruct (truthy v).
    + by split_and!.
    + specialize (Hk w1 (or_intror eq_refl) eq_refl eq_refl).
      destruct Hk as (E1 & E2 & E3).
      destruct (first_match builtin_name info cv gs c) as [r log].
      split_and!; cbn in *; [done| |].
      * by rewrite E2, <- app_assoc.
      * rewrite E3. by destruct log.
  - destruct e; by split_and!.
Qed.

Lemma scan_first_match info (cv : dict) section_indent docline :
  ∀ (h : header) (w : world),
    reached info cv w →
    let gc := guard_clauses (binds_i cv) section_indent h docline in
    agrees info cv w (scan builtin_name info section_indent h w docline)
      (first_match builtin_name info cv gc.1 gc.2).
Proof.
  induction docline as [|l docline IH]; intros h w Hw.
  - cbn. split_and!; cbn; [done| by rewrite app_nil_r | done].
  - cbn [scan guard_clauses].
    assert (Hp : reached info cv (print l w)) by done.
    destruct (String.eqb (strip l) ""); [by apply (IH h (print l w))|].
    destruct (isspace (take section_indent l)); cbn [negb].
    2:{ split_and!; cbn; [done| by rewrite app_nil_r | done]. }
    destruct (header_after h l) as [[k error_indent]|] eqn:Hh;
      [|by apply (IH None (print l w))].
    destruct (imatch (S error_indent) l) as [[[ws infospec] first]|];
      [|by apply (IH (Some (k, error_indent)) (print l w))].
    pose proof (IH (Some (k, error_indent))) as IH'. cbn zeta in IH'.
    rewrite (binds_i_reached info cv _ Hp).
    destruct (guard_clauses (binds_i cv) section_indent (Some (k, error_indent)) docline)
      as [gs c] eqn:Hgc. cbn [fst snd] in IH'.
    assert (Hguard : agrees info cv w
      (evaluate_guard builtin_name info k (String.length ws) infospec first docline
         (print l w) (λ w0, scan builtin_name info section_indent (Some (k, error_indent)) w0 docline))
      (first_match builtin_name info cv
         (Guard k infospec (message_of (String.length ws) first docline) :: gs) c)).
    { apply (evaluate_guard_agrees info cv k _ infospec first docline (print l w)); [done|].
      intros w1 H1 _ _. by apply IH'. }
    unfold binds_i. destruct (String.eqb infospec "e.info = -i"); cbn [andb].
    + destruct (cv !! "i"); cbn [negb]; [done|]. by apply (IH' (print l w)).
    + done.
Qed.

End Facts.

(** ** A call and the two passes *)

Section Calls.
Variable builtin_name : string -> bool.

(** A call that reads its guard clauses is [first_match] over them. *)
Lemma call_first_match info arg_list docstring (cv : dict) gs c :
  documented_guards cv docstring = Some (gs, c) →
  let fm := first_match builtin_name info cv gs c in
  let run := raise_if_slycot_error builtin_name info arg_list docstring cv in
  evaluated run.2 = fm.2
  ∧ checkvars run.2 = log_dict info cv cv fm.2
  ∧ run.1 = conclude info arg_list fm.1 (log_dict info cv cv fm.2).
Proof.
  unfold documented_guards, raise_if_slycot_error, scan_docstring.
  destruct docstring as [[|ch doc]|]; intros H; simplify_eq; try done.
  destruct (after_raises (splitlines (String ch doc))) as [[|underline docline]|];
    simplify_eq; try done.
  destruct (index "-" underline) as [section_indent|]; simplify_eq/=.
  pose proof (scan_first_match builtin_name info cv section_indent docline None
    (World cv [] []) (or_introl eq_refl)) as Hs.
  cbn zeta in Hs. rewrite H in Hs. cbn [fst snd] in Hs.
  destruct Hs as (E1 & E2 & E3).
  destruct (scan builtin_name info section_indent None (World cv [] []) docline) as [r w].
  cbn in *. by rewrite E1, E2, E3.
Qed.

(** A call whose title line is not followed by a dash. *)
Lemma call_without_underline info arg_list docstring (cv : dict) :
  documented_guards cv docstring = None →
  raise_if_slycot_error builtin_name info arg_list docstring cv
  = (Raises ValueError, World cv [] []).
Proof.
  unfold documented_guards, raise_if_slycot_error, scan_docstring.
  destruct docstring as [[|ch doc]|]; intros H; simplify_eq.
  destruct (after_raises (splitlines (String ch doc))) as [[|underline docline]|];
    simplify_eq.
  by destruct (index "-" underline).
Qed.

Lemma first_match_all_false info (cv : dict) gs c :
  Forall (evaluates_false builtin_name info cv) gs →
  first_match builtin_name info cv gs c
  = (match c with TextEnd => NoRule | Dedent => SectionClosed end,
     clause_predicate <$> gs).
Proof.
  induction 1 as [|g gs (v & Hv & Hf) _ IH]; [done|].
  cbn [first_match]. by rewrite Hv, Hf, IH.
Qed.

Lemma first_match_first_true info (cv : dict) pre g post c :
  Forall (evaluates_false builtin_name info cv) pre →
  evaluates_true builtin_name info cv g →
  first_match builtin_name info cv (pre ++ g :: post) c
  = (Rule (clause_class g) (clause_message g),
     (clause_predicate <$> pre) ++ [clause_predicate g]).
Proof.
  intros Hpre (v & Hv & Ht).
  induction Hpre as [|g' pre (v' & Hv' & Hf) _ IH]; cbn [app first_match].
  - by rewrite Hv, Ht.
  - by rewrite Hv', Hf, IH.
Qed.

(** The predicates evaluated are predicates of the guard clauses. *)
Lemma first_match_log_guard info (cv : dict) gs c p :
  p ∈ (first_match builtin_name info cv gs c).2 →
  ∃ g, g ∈ gs ∧ clause_predicate g = p.
Proof.
  induction gs as [|g gs IH]; cbn [first_match].
  - by intros ?%elem_of_nil.
  - assert (Hhead : p ∈ [clause_predicate g] → ∃ g0, g0 ∈ g :: gs ∧ clause_predicate g0 = p).
    { intros ->%list_elem_of_singleton. exists g. split; [left|done]. }
    destruct (guard_value builtin_name info cv (clause_predicate g)) as [v|e].
    + destruct (truthy v); [done|].
      destruct (first_match builtin_name info cv gs c) as [r log].
      intros [->|Hin]%elem_of_cons.
      * exists g. split; [left|done].
      * destruct (IH Hin) as (g0 & Hg0 & <-). exists g0. split; [by right|done].
    + by destruct e.
Qed.

(** An evaluation that raises is the last one, and decides. *)
Lemma first_match_raises info (cv : dict) gs c p e :
  p ∈ (first_match builtin_name info cv gs c).2 →
  guard_value builtin_name info cv p = Exc e →
  (first_match builtin_name info cv gs c).1 =
    Failed match e with
           | NameError _ => RuntimeError ("Unknown variable in infospec: " +:+ p)
           | SyntaxError => RuntimeError ("Invalid infospec: " +:+ p)
           | _ => e
           end.
Proof.
  intros Hin He. induction gs as [|g gs IH]; cbn [first_match] in *.
  - by apply elem_of_nil in Hin.
  - destruct (guard_value builtin_name info cv (clause_predicate g)) as [v|e'] eqn:Hg.
    + destruct (truthy v).
      * apply list_elem_of_singleton in Hin as ->. congruence.
      * destruct (first_match builtin_name info cv gs c) as [r log].
        apply elem_of_cons in Hin as [->|Hin]; [congruence|]. by apply IH.
    + assert (p = clause_predicate g) as ->.
      { destruct e'; by apply list_elem_of_singleton in Hin. }
      rewrite Hg in He. simplify_eq. by destruct e.
Qed.

(** Every guard clause is read off a line of the section. *)
Lemma guard_clauses_from_lines i_bound section_indent docline :
  ∀ h g, g ∈ (guard_clauses i_bound section_indent h docline).1 →
         ∃ l k ws first, l ∈ docline
                         ∧ imatch k l = Some (ws, clause_predicate g, first).
Proof.
  induction docline as [|l docline IH]; intros h g; cbn [guard_clauses].
  - by intros ?%elem_of_nil.
  - assert (Hrest : ∀ h', g ∈ (guard_clauses i_bound section_indent h' docline).1 →
              ∃ l0 k ws first, l0 ∈ l :: docline
                               ∧ imatch k l0 = Some (ws, clause_predicate g, first)).
    { intros h' Hg. destruct (IH h' g Hg) as (l0 & k & ws & first & Hl & Hm).
      exists l0, k, ws, first. split; [by right|done]. }
    destruct (String.eqb (strip l) ""); [apply Hrest|].
    destruct (isspace (take section_indent l)); cbn [negb]; [|by intros ?%elem_of_nil].
    destruct (header_after h l) as [[k error_indent]|]; [|apply Hrest].
    destruct (imatch (S error_indent) l) as [[[ws infospec] first]|] eqn:Hm; [|apply Hrest].
    specialize (Hrest (Some (k, error_indent))).
    destruct (guard_clauses i_bound section_indent (Some (k, error_indent)) docline) as [gs c].
    destruct (String.eqb infospec "e.info = -i" && negb i_bound); cbn [fst] in *; [done|].
    intros [->|Hin]%elem_of_cons; [|by apply Hrest].
    exists l, (S error_indent), ws, first. split; [by left|done].
Qed.

(** The reserved predicate is no guard clause unless [i] is bound. *)
Lemma guard_clauses_reserved section_indent docline :
  ∀ h g, g ∈ (guard_clauses false section_indent h docline).1 →
         clause_predicate g ≠ "e.info = -i".
Proof.
  induction docline as [|l docline IH]; intros h g; cbn [guard_clauses].
  - by intros ?%elem_of_nil.
  - destruct (String.eqb (strip l) ""); [apply IH|].
    destruct (isspace (take section_indent l)); cbn [negb]; [|by intros ?%elem_of_nil].
    destruct (header_after h l) as [[k error_indent]|]; [|apply IH].
    destruct (imatch (S error_indent) l) as [[[ws infospec] first]|]; [|apply IH].
    specialize (IH (Some (k, error_indent)) g).
    destruct (guard_clauses false section_indent (Some (k, error_indent)) docline) as [gs c].
    destruct (String.eqb infospec "e.info = -i") eqn:E; cbn [andb negb fst] in *; [done|].
    intros [->|Hin]%elem_of_cons; [|by apply IH].
    cbn. by apply String.eqb_neq.
Qed.

Lemma append_nl_nonempty (s t : string) : String.eqb (s +:+ nl +:+ t) "" = false.
Proof. by destruct s. Qed.

Lemma message_of_nonempty ind first docline :
  String.eqb (message_of ind first docline) "" = false.
Proof.
  unfold message_of. destruct docline as [|l docline].
  - by destruct (strip first).
  - destruct (mmatch (S ind) l) as [[ws text]|]; by destruct (strip first).
Qed.

Lemma guard_clauses_message i_bound section_indent docline :
  ∀ h g, g ∈ (guard_clauses i_bound section_indent h docline).1 →
         String.eqb (clause_message g) "" = false.
Proof.
  induction docline as [|l docline IH]; intros h g; cbn [guard_clauses].
  - by intros ?%elem_of_nil.
  - destruct (String.eqb (strip l) ""); [apply IH|].
    destruct (isspace (take section_indent l)); cbn [negb]; [|by intros ?%elem_of_nil].
    destruct (header_after h l) as [[k error_indent]|]; [|apply IH].
    destruct (imatch (S error_indent) l) as [[[ws infospec] first]|]; [|apply IH].
    specialize (IH (Some (k, error_indent)) g).
    destruct (guard_clauses i_bound section_indent (Some (k, error_indent)) docline) as [gs c].
    destruct (String.eqb infospec "e.info = -i" && negb i_bound); cbn [fst] in *; [done|].
    intros [->|Hin]%elem_of_cons; [|by apply IH].
    apply message_of_nonempty.
Qed.

Lemma documented_guards_message (cv : dict) docstring gs c g :
  documented_guards cv docstring = Some (gs, c) → g ∈ gs →
  String.eqb (clause_message g) "" = false.
Proof.
  unfold documented_guards.
  destruct docstring as [[|ch doc]|]; intros H Hg; simplify_eq; try by apply elem_of_nil in Hg.
  destruct (after_raises (splitlines (String ch doc))) as [[|underline docline]|];
    simplify_eq; try by apply elem_of_nil in Hg.
  destruct (index "-" underline) as [section_indent|]; simplify_eq/=.
  apply (guard_clauses_message (binds_i cv) section_indent docline None g).
  by rewrite H.
Qed.

Lemma documented_guards_reserved (cv : dict) docstring gs c g :
  cv !! "i" = None →
  documented_guards cv docstring = Some (gs, c) → g ∈ gs →
  clause_predicate g ≠ "e.info = -i".
Proof.
  unfold documented_guards. intros Hi.
  destruct docstring as [[|ch doc]|]; intros H Hg; simplify_eq; try by apply elem_of_nil in Hg.
  destruct (after_raises (splitlines (String ch doc))) as [[|underline docline]|];
    simplify_eq; try by apply elem_of_nil in Hg.
  destruct (index "-" underline) as [section_indent|]; simplify_eq/=.
  unfold binds_i in H. rewrite Hi in H.
  apply (guard_clauses_reserved section_indent docline None g).
  by rewrite H.
Qed.

Lemma fallback_nonnegative info arg_list : 0 <= info → fallback info arg_list = Returns.
Proof.
  intros H. unfold fallback. destruct arg_list as [[|a args]|]; try done.
  by rewrite (proj2 (Z.ltb_ge info 0) H).
Qed.

Lemma fallback_negative info (args : list string) name :
  info < 0 → args !! Z.to_nat (- info - 1) = Some name →
  fallback info (Some args)
  = Raises (Slycot SlycotParameterError (illegal_value name) info).
Proof.
  intros H Hn. unfold fallback. destruct args as [|a args]; [done|].
  by rewrite (proj2 (Z.ltb_lt info 0) H), Hn.
Qed.

End Calls.

(** ** What an evaluation can raise *)

Scheme expr_mut := Induction for expr Sort Prop
  with chain_mut := Induction for chain Sort Prop.
Combined Scheme expr_chain_ind from expr_mut, chain_mut.

Section Evaluation.
Variable builtin_name : string -> bool.

Lemma compare_values_raises op a b e :
  compare_values op a b = Exc e → e = TypeError ∨ e = OutsideModel.
Proof.
  unfold compare_values. intros H.
  destruct a, b, op; cbn in H; simplify_eq; auto.
Qed.

Lemma lookup_name_raises (g : dict) x e :
  lookup_name builtin_name g x = Exc e →
  e = OutsideModel ∨ (e = NameError x ∧ g !! x = None ∧ builtin_name x = false).
Proof.
  unfold lookup_name. intros H.
  destruct (g !! x); [done|].
  destruct (g !! "__builtins__") as [[]|]; simplify_eq; auto.
  destruct (builtin_name x) eqn:E; simplify_eq; auto.
Qed.

(** What the evaluation raises, and that a [NameError] names a name of the
    expression which neither the globals nor the builtins bind. *)
Lemma eval_raises (g : dict) :
  (∀ e x, eval_expr builtin_name g e = Exc x →
     raised_by_eval x
     ∧ ∀ n, x = NameError n → n ∈ names_of e ∧ g !! n = None ∧ builtin_name n = false)
  ∧ (∀ c left x, eval_chain builtin_name g left c = Exc x →
     raised_by_eval x
     ∧ ∀ n, x = NameError n → n ∈ names_of_chain c ∧ g !! n = None ∧ builtin_name n = false).
Proof.
  apply expr_chain_ind.
  - intros n x H. cbn in H. apply lookup_name_raises in H as [->|(-> & Hn & Hb)].
    + split; [done|]. intros ? [=].
    + split; [done|]. intros ? [= <-]. split_and!; [by left|done|done].
  - done.
  - done.
  - intros e IH a x H. cbn in H.
    destruct (eval_expr builtin_name g e) as [v|y] eqn:E; cbn in H.
    + assert (x = OutsideModel) as ->.
      { destruct v; try by simplify_eq. by destruct (String.eqb a "info"); simplify_eq. }
      split; [done|]. intros ? [=].
    + simplify_eq. by apply IH.
  - intros neg e IH x H. cbn in H.
    destruct (eval_expr builtin_name g e) as [v|y] eqn:E; cbn in H.
    + assert (x = OutsideModel ∨ x = TypeError) as [-> | ->].
      { destruct v; simplify_eq; auto. }
      all: split; [done|]; intros ? [=].
    + simplify_eq. by apply IH.
  - intros op a IHa b IHb x H. cbn in H.
    destruct (eval_expr builtin_name g a) as [va|y] eqn:Ea; cbn in H.
    + destruct (eval_expr builtin_name g b) as [vb|y] eqn:Eb; cbn in H.
      * assert (x = OutsideModel) as ->.
        { destruct (as_int va), (as_int vb); by simplify_eq. }
        split; [done|]. intros ? [=].
      * simplify_eq. destruct (IHb _ eq_refl) as [Hr Hn]. split; [done|].
        intros n Hx. destruct (Hn n Hx) as (? & ? & ?). split_and!; [|done|done].
        apply elem_of_app. by right.
    + simplify_eq. destruct (IHa _ eq_refl) as [Hr Hn]. split; [done|].
      intros n Hx. destruct (Hn n Hx) as (? & ? & ?). split_and!; [|done|done].
      apply elem_of_app. by left.
  - intros a IHa c IHc x H. cbn in H.
    destruct (eval_expr builtin_name g a) as [va|y] eqn:Ea; cbn in H.
    + destruct (IHc _ _ H) as [Hr Hn]. split; [done|].
      intros n Hx. destruct (Hn n Hx) as (? & ? & ?). split_and!; [|done|done].
      apply elem_of_app. by right.
    + simplify_eq. destruct (IHa _ eq_refl) as [Hr Hn]. split; [done|].
      intros n Hx. destruct (Hn n Hx) as (? & ? & ?). split_and!; [|done|done].
      apply elem_of_app. by left.
  - intros e IH x H. cbn in H.
    destruct (eval_expr builtin_name g e) as [v|y] eqn:E; cbn in H; simplify_eq.
    by apply IH.
  - intros a IHa b IHb x H. cbn in H.
    destruct (eval_expr builtin_name g a) as [va|y] eqn:Ea; cbn in H.
    + destruct (truthy va); [|done].
      destruct (IHb _ H) as [Hr Hn]. split; [done|].
      intros n Hx. destruct (Hn n Hx) as (? & ? & ?). split_and!; [|done|done].
      apply elem_of_app. by right.
    + simplify_eq. destruct (IHa _ eq_refl) as [Hr Hn]. split; [done|].
      intros n Hx. destruct (Hn n Hx) as (? & ? & ?). split_and!; [|done|done].
      apply elem_of_app. by left.
  - intros a IHa b IHb x H. cbn in H.
    destruct (eval_expr builtin_name g a) as [va|y] eqn:Ea; cbn in H.
    + destruct (truthy va); [done|].
      destruct (IHb _ H) as [Hr Hn]. split; [done|].
      intros n Hx. destruct (Hn n Hx) as (? & ? & ?). split_and!; [|done|done].
      apply elem_of_app. by right.
    + simplify_eq. destruct (IHa _ eq_refl) as [Hr Hn]. split; [done|].
      intros n Hx. destruct (Hn n Hx) as (? & ? & ?). split_and!; [|done|done].
      apply elem_of_app. by left.
  - done.
  - intros op b IHb c IHc left x H. cbn in H.
    destruct (eval_expr builtin_name g b) as [vb|y] eqn:Eb; cbn in H.
    + destruct (compare_values op left vb) as [ok|y] eqn:Ec; cbn in H.
      * destruct ok; [|done].
        destruct (IHc _ _ H) as [Hr Hn]. split; [done|].
        intros n Hx. destruct (Hn n Hx) as (? & ? & ?). split_and!; [|done|done].
        apply elem_of_app. by right.
      * simplify_eq. apply compare_values_raises in Ec as [-> | ->];
          (split; [done|]; intros ? [=]).
    + simplify_eq. destruct (IHb _ eq_refl) as [Hr Hn]. split; [done|].
      intros n Hx. destruct (Hn n Hx) as (? & ? & ?). split_and!; [|done|done].
      apply elem_of_app. by left.
Qed.

(** A guard whose evaluation raises [NameError] refers to the name, and
    neither the caller, nor [e], nor the builtins bind it. *)
Lemma name_error_unbound info (cv : dict) p n :
  guard_value builtin_name info cv p = Exc (NameError n) →
  n ∈ referenced_names p ∧ cv !! n = None ∧ n ≠ "e" ∧ builtin_name n = false.
Proof.
  unfold guard_value, py_eval, referenced_names.
  destruct (lex (replace_eq p)) as [ts|]; [|done].
  destruct (parse ts) as [e rest| |]; [|done|done].
  intros H. destruct (proj1 (eval_raises _) _ _ H) as [_ Hn].
  destruct (Hn n eq_refl) as (Hin & Hg & Hb).
  assert (n ≠ "e") as He.
  { intros ->. by rewrite eval_scope_e in Hg. }
  assert (n ≠ "__builtins__") as Hbi.
  { intros ->. unfold eval_scope, with_builtins in Hg.
    destruct (<["e":=VErr "" info]> cv !! "__builtins__") eqn:E; [congruence|].
    by rewrite lookup_insert_eq in Hg. }
  rewrite eval_scope_other in Hg by done. done.
Qed.

(** The evaluation of a guard raises neither [RuntimeError] nor a domain
    error. *)
Lemma guard_value_raises info (cv : dict) p x :
  guard_value builtin_name info cv p = Exc x → x = SyntaxError ∨ raised_by_eval x.
Proof.
  unfold guard_value, py_eval.
  destruct (lex (replace_eq p)) as [ts|]; [|intros [= <-]; by right].
  destruct (parse ts) as [e rest| |]; [|intros [= <-]; by left|intros [= <-]; by right].
  intros H. right. by apply (proj1 (eval_raises _) _ _ H).
Qed.

End Evaluation.

(** [str.format] raises neither [RuntimeError] nor a domain error. *)
Lemma format_value_raises v spec e :
  format_value v spec = Exc e → raised_by_format e.
Proof.
  unfold format_value. intros H.
  destruct spec as [|a spec]; [by destruct v; simplify_eq|].
  destruct v; try by simplify_eq.
  destruct (parse_g_spec (String a spec)) as [[width precision]|]; by simplify_eq.
Qed.

Lemma format_field_raises (kwargs : dict) field e :
  format_field kwargs field = Exc e → raised_by_format e.
Proof.
  unfold format_field. intros H.
  destruct (existsb _ _); [by simplify_eq|].
  destruct (break_at (is_char ":") field) as [path r].
  destruct (break_at (is_char ".") path) as [name attr].
  destruct (all_digits name);
    [destruct (String.length name <=? 9)%nat; by simplify_eq|].
  destruct (kwargs !! name) as [v|]; [|by simplify_eq].
  destruct attr; [by eapply format_value_raises|].
  destruct v; try by simplify_eq.
  destruct (String.eqb _ _); [by eapply format_value_raises | by simplify_eq].
Qed.

Lemma format_go_raises (kwargs : dict) n :
  ∀ s field e, (String.length s ≤ n)%nat →
    format_go kwargs field s = Exc e → raised_by_format e.
Proof.
  induction n as [|n IH]; intros s field e Hlen H.
  - destruct s; [|cbn in Hlen; lia]. destruct field; cbn in H; by simplify_eq.
  - destruct s as [|c s]; [destruct field; cbn in H; by simplify_eq|].
    cbn in Hlen. cbn [format_go] in H. destruct field as [acc|].
    + destruct (is_char "}" c).
      * destruct (format_field kwargs (String.rev acc)) as [text|x] eqn:Ef; cbn in H.
        -- destruct (format_go kwargs None s) as [rest|x] eqn:Eg; cbn in H; simplify_eq.
           apply (IH s None); [lia|done].
        -- simplify_eq. by eapply format_field_raises.
      * apply (IH s (Some (String c acc))); [lia|done].
    + assert (Hmap : ∀ s0, (String.length s0 ≤ n)%nat →
                String c <$> format_go kwargs None s0 = Exc e → raised_by_format e).
      { intros s0 Hs0 Hm. destruct (format_go kwargs None s0) eqn:Eg; cbn in Hm; simplify_eq.
        by apply (IH s0 None). }
      destruct (is_char "{" c).
      * destruct s as [|d s]; [by simplify_eq|]. cbn in Hlen.
        destruct (is_char "{" d); [apply (Hmap s); [lia|done]|].
        apply (IH (String d s) (Some EmptyString)); [cbn; lia|done].
      * destruct (is_char "}" c); [|apply (Hmap s); [lia|done]].
        destruct s as [|d s]; [by simplify_eq|]. cbn in Hlen.
        destruct (is_char "}" d); [apply (Hmap s); [lia|done] | by simplify_eq].
Qed.

Lemma format_raises template (kwargs : dict) e :
  format template kwargs = Exc e → raised_by_format e.
Proof. by apply (format_go_raises kwargs (String.length template)). Qed.

(** ** The claims *)

(** A call in which every guard clause evaluates to a false value ends as
    its section ends. *)
Lemma unmatched_call builtin_name info arg_list docstring (cv : dict) gs c :
  documented_guards cv docstring = Some (gs, c) →
  Forall (evaluates_false builtin_name info cv) gs →
  (raise_if_slycot_error builtin_name info arg_list docstring cv).1
  = match c with
    | TextEnd => fallback info arg_list
    | Dedent => Returns
    end.
Proof.
  intros Hd Hall.
  destruct (call_first_match builtin_name info arg_list docstring cv gs c Hd)
    as (_ & _ & ->).
  rewrite (first_match_all_false builtin_name info cv gs c Hall).
  by destruct c.
Qed.

(** The guard clauses of the documented scenario; none of them holds for a
    status of -1, 0 or 200. *)
Lemma fun_doc_guards (cv : dict) :
  documented_guards cv (Some Scenario.fun_doc) = Some (Scenario.fun_guards, TextEnd).
Proof. vm_compute. reflexivity. Qed.

Lemma fun_guards_false info :
  info = -1 ∨ info = 0 ∨ info = 200 →
  Forall (evaluates_false Scenario.builtin_name info Scenario.fun_vars) Scenario.fun_guards.
Proof.
  intros [-> | [-> | ->]]; repeat constructor; exists (VBool false);
    split; vm_compute; reflexivity.
Qed.

(** Once the section is closed by a line that is not indented as deep as
    the underline, the call returns, whatever the status and the argument
    list. *)
Lemma closed_section_returns builtin_name info arg_list docstring (cv : dict) gs :
  documented_guards cv docstring = Some (gs, Dedent) →
  Forall (evaluates_false builtin_name info cv) gs →
  (raise_if_slycot_error builtin_name info arg_list docstring cv).1 = Returns.
Proof. intros Hd Hall. by rewrite (unmatched_call _ _ _ _ _ gs Dedent Hd Hall). Qed.

(** C1.  The claim: when a line that is not indented as deep as the section
    closes the Raises section before a guard holds, a negative status with a
    non-empty argument list still raises the parameter error.  The code
    returns instead: with status -1 and the argument list [a], on a docstring
    whose section is closed by such a line, the call returns [None], although
    lines 187 to 190 would have raised the parameter error naming [a]. *)
Theorem closed_section_skips_fallback (builtin_name : string → bool) :
  documented_guards ∅ (Some Scenario.closed_doc)
  = Some ([Guard SlycotArithmeticError "e.info = 1" ("Info is 1" +:+ nl)], Dedent)
  ∧ (raise_if_slycot_error builtin_name (-1) (Some ["a"])
       (Some Scenario.closed_doc) ∅).1 = Returns
  ∧ fallback (-1) (Some ["a"])
    = Raises (Slycot SlycotParameterError (illegal_value "a") (-1)).
Proof. split_and!; vm_compute; reflexivity. Qed.

(** The same line of the source, for a section that starts at the margin:
    the prefix of length 0 is empty, [isspace] is false of it, and the call
    returns at the first line of the section, its rules unread. *)
Lemma margin_section_is_not_read (builtin_name : string → bool) :
  raise_if_slycot_error builtin_name 1 None (Some Scenario.margin_doc) ∅
  = (Returns, World ∅ [] ["SlycotArithmeticError : e"]).
Proof. vm_compute. reflexivity. Qed.

(** C2, the claim as stated fails: with status -1 and the arguments [a],
    [b], [c], position [N + status] holds [c], and the error names [a]. *)
Lemma fallback_counts_from_the_start :
  Scenario.fun_args !! Z.to_nat (Z.of_nat (length Scenario.fun_args) + -1) = Some "c"
  ∧ (raise_if_slycot_error Scenario.builtin_name (-1) (Some Scenario.fun_args) None ∅).1
    = Raises (Slycot SlycotParameterError (illegal_value "a") (-1))
  ∧ (raise_if_slycot_error Scenario.builtin_name (-1) (Some Scenario.fun_args) None ∅).1
    ≠ Raises (Slycot SlycotParameterError (illegal_value "c") (-1)).
Proof. split_and!; [reflexivity | reflexivity | vm_compute; discriminate]. Qed.

(** C2, amended.  For a negative status, when there is no documentation or
    the documentation is read to its end with every guard false, and the
    argument list holds a name at position [-status - 1] from its start, the
    call raises the parameter error naming that argument. *)
Theorem fallback_names_argument (builtin_name : string → bool) info
    (args : list string) docstring (cv : dict) gs name :
  info < 0 →
  documented_guards cv docstring = Some (gs, TextEnd) →
  Forall (evaluates_false builtin_name info cv) gs →
  args !! Z.to_nat (- info - 1) = Some name →
  (raise_if_slycot_error builtin_name info (Some args) docstring cv).1
  = Raises (Slycot SlycotParameterError
              ("The following argument had an illegal value: " +:+ name) info).
Proof.
  intros Hneg Hd Hall Hname.
  rewrite (unmatched_call _ _ _ _ _ gs TextEnd Hd Hall).
  by apply fallback_negative.
Qed.

(** An instance: status -1 and the arguments [a], [b], [c], with the
    documented docstring and with none. *)
Lemma fallback_names_argument_witness :
  -1 < 0
  ∧ documented_guards Scenario.fun_vars (Some Scenario.fun_doc)
    = Some (Scenario.fun_guards, TextEnd)
  ∧ Forall (evaluates_false Scenario.builtin_name (-1) Scenario.fun_vars)
      Scenario.fun_guards
  ∧ Scenario.fun_args !! Z.to_nat (- -1 - 1) = Some "a"
  ∧ (raise_if_slycot_error Scenario.builtin_name (-1) (Some Scenario.fun_args)
       (Some Scenario.fun_doc) Scenario.fun_vars).1
    = Raises (Slycot SlycotParameterError
                "The following argument had an illegal value: a" (-1))
  ∧ (raise_if_slycot_error Scenario.builtin_name (-1) (Some Scenario.fun_args) None ∅).1
    = Raises (Slycot SlycotParameterError
                "The following argument had an illegal value: a" (-1)).
Proof.
  split_and!.
  - lia.
  - apply fun_doc_guards.
  - apply fun_guards_false. by left.
  - reflexivity.
  - apply (fallback_names_argument Scenario.builtin_name (-1) Scenario.fun_args
             (Some Scenario.fun_doc) Scenario.fun_vars Scenario.fun_guards "a");
      [lia | apply fun_doc_guards | apply fun_guards_false; by left | reflexivity].
  - apply (fallback_names_argument Scenario.builtin_name (-1) Scenario.fun_args None ∅ [] "a");
      [lia | reflexivity | constructor | reflexivity].
Defined.

(** Past the end of the list the lookup of line 189 raises [IndexError]. *)
Lemma fallback_out_of_range info (args : list string) :
  info < 0 → args ≠ [] → (length args < Z.to_nat (- info))%nat →
  fallback info (Some args) = Raises IndexError.
Proof.
  intros Hneg Hne Hlen. unfold fallback. destruct args as [|a args]; [done|].
  rewrite (proj2 (Z.ltb_lt info 0) Hneg).
  rewrite (proj2 (lookup_ge_None (a :: args) _)); [done|]. lia.
Qed.

(** C3, the claim as stated fails: after a call that evaluates a guard the
    caller's dict binds [e], which it did not bind before. *)
Lemma checkvars_gains_e :
  Scenario.fun_vars !! "e" = None
  ∧ checkvars (raise_if_slycot_error Scenario.builtin_name 0
                 (Some Scenario.fun_args) (Some Scenario.fun_doc) Scenario.fun_vars).2
    !! "e" = Some (VErr "" 0)
  ∧ checkvars (raise_if_slycot_error Scenario.builtin_name 0
                 (Some Scenario.fun_args) (Some Scenario.fun_doc) Scenario.fun_vars).2
    ≠ Scenario.fun_vars.
Proof.
  split_and!; [reflexivity | vm_compute; reflexivity |].
  intros H. apply (f_equal (λ m : dict, m !! "e")) in H. vm_compute in H. discriminate.
Qed.

(** C3, amended.  The call writes into the caller's dict.  Of a call all of
    whose evaluated guards are expressions of the modelled kind (names,
    integers, [e.info], sums, differences and products, comparisons, [not],
    [and], [or]; an expression that assigns, as [(n := 5) > 1] does, is not
    of that kind): when it evaluates no guard the dict is left as it was;
    when it evaluates one, the dict is the caller's with [e] bound to an
    error object that carries the status, and with [__builtins__] bound if it
    was not.  Either way every key other than [e] and [__builtins__] keeps
    its binding. *)
Theorem checkvars_frame (builtin_name : string → bool) info arg_list docstring
    (cv : dict) :
  let w := (raise_if_slycot_error builtin_name info arg_list docstring cv).2 in
  Forall (in_fragment builtin_name info cv) (evaluated w) →
  (∀ k : string, k ≠ "e" → k ≠ "__builtins__" → checkvars w !! k = cv !! k)
  ∧ (evaluated w = [] → checkvars w = cv)
  ∧ (evaluated w ≠ [] →
       checkvars w = with_builtins (<["e" := VErr "" info]> cv)
       ∧ checkvars w !! "e" = Some (VErr "" info)).
Proof.
  intros w _. subst w.
  destruct (documented_guards cv docstring) as [[gs c]|] eqn:Hd.
  - destruct (call_first_match builtin_name info arg_list docstring cv gs c Hd)
      as (E1 & E2 & _).
    cbn zeta. rewrite E1, E2.
    destruct (first_match builtin_name info cv gs c).2; cbn [log_dict].
    + by split_and!.
    + split_and!; [|done|].
      * intros k He Hb. by apply eval_scope_other.
      * intros _. split; [done|]. apply eval_scope_e.
  - by rewrite (call_without_underline builtin_name info arg_list docstring cv Hd).
Qed.

(** An instance: the documented scenario with status 0, in which the three
    guards are evaluated. *)
Lemma checkvars_frame_witness :
  Forall (in_fragment Scenario.builtin_name 0 Scenario.fun_vars)
    (evaluated (raise_if_slycot_error Scenario.builtin_name 0 (Some Scenario.fun_args)
                  (Some Scenario.fun_doc) Scenario.fun_vars).2)
  ∧ ("n" ≠ "e" ∧ "n" ≠ "__builtins__"
   ∧ checkvars (raise_if_slycot_error Scenario.builtin_name 0 (Some Scenario.fun_args)
                  (Some Scenario.fun_doc) Scenario.fun_vars).2 !! "n"
     = Scenario.fun_vars !! "n")
  ∧ evaluated (raise_if_slycot_error Scenario.builtin_name 0 (Some Scenario.fun_args)
                 (Some Scenario.fun_doc) Scenario.fun_vars).2 ≠ []
  ∧ checkvars (raise_if_slycot_error Scenario.builtin_name 0 (Some Scenario.fun_args)
                 (Some Scenario.fun_doc) Scenario.fun_vars).2 !! "e"
    = Some (VErr "" 0).
Proof.
  assert (Hfrag : Forall (in_fragment Scenario.builtin_name 0 Scenario.fun_vars)
            (evaluated (raise_if_slycot_error Scenario.builtin_name 0
               (Some Scenario.fun_args) (Some Scenario.fun_doc) Scenario.fun_vars).2)).
  { replace (evaluated _)
      with ["e.info = 1"; "e.info > 1 and e.info < n"; "n <= e.info < m"]
      by (vm_compute; reflexivity).
    repeat constructor; vm_compute; discriminate. }
  pose proof (checkvars_frame Scenario.builtin_name 0 (Some Scenario.fun_args)
                (Some Scenario.fun_doc) Scenario.fun_vars Hfrag) as (Hk & _ & He).
  assert (Hlog : evaluated (raise_if_slycot_error Scenario.builtin_name 0
            (Some Scenario.fun_args) (Some Scenario.fun_doc) Scenario.fun_vars).2 ≠ [])
    by (vm_compute; discriminate).
  split_and!;
    [exact Hfrag | discriminate | discriminate | | exact Hlog | exact (proj2 (He Hlog))].
  apply (Hk "n"); discriminate.
Defined.

(** C4.  The claim: documentation of an unexpected shape never makes the
    call raise; it falls back.  The code misses one case: a title line whose
    next line holds no dash makes line 124 raise [ValueError], which nothing
    catches. *)
Theorem missing_underline_raises_ValueError (builtin_name : string → bool) info
    arg_list (cv : dict) :
  raise_if_slycot_error builtin_name info arg_list (Some Scenario.no_underline_doc) cv
  = (Raises ValueError, World cv [] []).
Proof. by apply call_without_underline. Qed.

(** Without a title line, or with the title on the last line, the call
    goes on to lines 187 to 190 and leaves the dict alone. *)
Lemma missing_section_falls_back builtin_name info arg_list ch doc (cv : dict) :
  after_raises (splitlines (String ch doc)) = None
  ∨ after_raises (splitlines (String ch doc)) = Some [] →
  raise_if_slycot_error builtin_name info arg_list (Some (String ch doc)) cv
  = (fallback info arg_list, World cv [] []).
Proof.
  unfold raise_if_slycot_error, scan_docstring. by intros [-> | ->].
Qed.


(** C5, the claim as stated fails: the guard below refers to [n], which is
    bound neither by the caller nor among the builtins; it is evaluated, with
    status 0, and the call returns: [and] never reaches [n]. *)
Lemma unbound_name_behind_and :
  "e.info > 1 and e.info < n"
  ∈ evaluated (raise_if_slycot_error Scenario.builtin_name 0 None
                 (Some Scenario.short_circuit_doc) ∅).2
  ∧ "n" ∈ referenced_names "e.info > 1 and e.info < n"
  ∧ eval_scope 0 ∅ !! "n" = None
  ∧ Scenario.builtin_name "n" = false
  ∧ (raise_if_slycot_error Scenario.builtin_name 0 None
       (Some Scenario.short_circuit_doc) ∅).1 = Returns.
Proof.
  split_and!; try (vm_compute; reflexivity).
  - vm_compute. apply list_elem_of_singleton. reflexivity.
  - vm_compute. do 2 right. left.
Qed.

(** C5, amended.  For every guard predicate that is evaluated: if its
    evaluation raises [NameError] (it looks up a name that neither the scope
    nor the builtins bind) the call raises [RuntimeError] with the message
    "Unknown variable in infospec: " followed by the predicate as written; if
    the predicate is not well formed the call raises [RuntimeError] with
    "Invalid infospec: " followed by the predicate.  Neither is a domain
    error. *)
Theorem evaluation_errors_are_runtime_errors (builtin_name : string → bool)
    info arg_list docstring (cv : dict) p :
  let run := raise_if_slycot_error builtin_name info arg_list docstring cv in
  p ∈ evaluated run.2 →
  (∀ x, guard_value builtin_name info cv p = Exc (NameError x) →
        run.1 = Raises (RuntimeError ("Unknown variable in infospec: " +:+ p)))
  ∧ (guard_value builtin_name info cv p = Exc SyntaxError →
        run.1 = Raises (RuntimeError ("Invalid infospec: " +:+ p))).
Proof.
  cbn zeta. intros Hp.
  destruct (documented_guards cv docstring) as [[gs c]|] eqn:Hd.
  - destruct (call_first_match builtin_name info arg_list docstring cv gs c Hd)
      as (E1 & _ & E3).
    rewrite E1 in Hp. rewrite E3.
    pose proof (first_match_raises builtin_name info cv gs c p) as Hr.
    split.
    + intros x Hx. by rewrite (Hr _ Hp Hx).
    + intros Hx. by rewrite (Hr _ Hp Hx).
  - rewrite (call_without_underline builtin_name info arg_list docstring cv Hd) in Hp.
    by apply elem_of_nil in Hp.
Qed.

(** Two instances: a guard that reaches an unbound name, and a guard that
    is no expression. *)
Lemma evaluation_errors_are_runtime_errors_witness :
  ("e.info > 1 and e.info < n"
   ∈ evaluated (raise_if_slycot_error Scenario.builtin_name 2 None
                  (Some Scenario.short_circuit_doc) ∅).2
   ∧ guard_value Scenario.builtin_name 2 ∅ "e.info > 1 and e.info < n"
     = Exc (NameError "n")
   ∧ (raise_if_slycot_error Scenario.builtin_name 2 None
        (Some Scenario.short_circuit_doc) ∅).1
     = Raises (RuntimeError
                 "Unknown variable in infospec: e.info > 1 and e.info < n"))
  ∧ ("e.info = 1 2"
     ∈ evaluated (raise_if_slycot_error Scenario.builtin_name 2 None
                    (Some Scenario.invalid_guard_doc) ∅).2
     ∧ guard_value Scenario.builtin_name 2 ∅ "e.info = 1 2" = Exc SyntaxError
     ∧ (raise_if_slycot_error Scenario.builtin_name 2 None
          (Some Scenario.invalid_guard_doc) ∅).1
       = Raises (RuntimeError "Invalid infospec: e.info = 1 2")).
Proof.
  assert (Hp : "e.info > 1 and e.info < n"
               ∈ evaluated (raise_if_slycot_error Scenario.builtin_name 2 None
                              (Some Scenario.short_circuit_doc) ∅).2).
  { vm_compute. apply list_elem_of_singleton. reflexivity. }
  assert (Hn : guard_value Scenario.builtin_name 2 ∅ "e.info > 1 and e.info < n"
               = Exc (NameError "n")) by (vm_compute; reflexivity).
  assert (Hq : "e.info = 1 2"
               ∈ evaluated (raise_if_slycot_error Scenario.builtin_name 2 None
                              (Some Scenario.invalid_guard_doc) ∅).2).
  { vm_compute. apply list_elem_of_singleton. reflexivity. }
  assert (Hs : guard_value Scenario.builtin_name 2 ∅ "e.info = 1 2" = Exc SyntaxError)
    by (vm_compute; reflexivity).
  split_and!; [exact Hp | exact Hn | | exact Hq | exact Hs |].
  - exact (proj1 (evaluation_errors_are_runtime_errors Scenario.builtin_name 2 None
                    (Some Scenario.short_circuit_doc) ∅ _ Hp) "n" Hn).
  - exact (proj2 (evaluation_errors_are_runtime_errors Scenario.builtin_name 2 None
                    (Some Scenario.invalid_guard_doc) ∅ _ Hq) Hs).
Defined.

(** A scan that fails has evaluated a guard that raised. *)
Lemma first_match_failed builtin_name info (cv : dict) gs c e :
  (first_match builtin_name info cv gs c).1 = Failed e →
  ∃ p x, p ∈ (first_match builtin_name info cv gs c).2
         ∧ guard_value builtin_name info cv p = Exc x
         ∧ e = match x with
               | NameError _ => RuntimeError ("Unknown variable in infospec: " +:+ p)
               | SyntaxError => RuntimeError ("Invalid infospec: " +:+ p)
               | _ => x
               end.
Proof.
  induction gs as [|g gs IH]; cbn [first_match].
  - by destruct c.
  - destruct (guard_value builtin_name info cv (clause_predicate g)) as [v|x] eqn:Hg.
    + destruct (truthy v); [done|].
      destruct (first_match builtin_name info cv gs c) as [r log]. cbn [fst snd] in *.
      intros Hr. destruct (IH Hr) as (p & x & Hp & Hx & He).
      exists p, x. split_and!; [by right|done|done].
    + intros Hr. exists (clause_predicate g), x.
      destruct x; cbn [fst snd] in *; simplify_eq; (split_and!; [by left|done|done]).
Qed.

(** The call raises [RuntimeError] only for a guard whose evaluation raised
    [NameError] or [SyntaxError]: the shape of the docstring alone never
    makes it do so. *)
Lemma runtime_error_from_guard builtin_name info arg_list docstring (cv : dict) m :
  (raise_if_slycot_error builtin_name info arg_list docstring cv).1
    = Raises (RuntimeError m) →
  ∃ p, p ∈ evaluated (raise_if_slycot_error builtin_name info arg_list docstring cv).2
       ∧ ((∃ n, guard_value builtin_name info cv p = Exc (NameError n)
                ∧ m = "Unknown variable in infospec: " +:+ p)
          ∨ (guard_value builtin_name info cv p = Exc SyntaxError
             ∧ m = "Invalid infospec: " +:+ p)).
Proof.
  destruct (documented_guards cv docstring) as [[gs c]|] eqn:Hd.
  - destruct (call_first_match builtin_name info arg_list docstring cv gs c Hd)
      as (E1 & _ & E3).
    rewrite E1, E3.
    destruct (first_match builtin_name info cv gs c).1 as [| |k message|e] eqn:Hfm;
      cbn [conclude].
    + done.
    + unfold fallback. destruct arg_list as [[|a args]|]; try done.
      destruct (info <? 0); [|done]. by destruct (_ !! _).
    + destruct (negb _).
      * destruct (format message _) as [text|e] eqn:Hf; [done|].
        intros [= ->]. by apply format_raises in Hf.
      * unfold fallback. destruct arg_list as [[|a args]|]; try done.
        destruct (info <? 0); [|done]. by destruct (_ !! _).
    + intros [= ->]. destruct (first_match_failed _ _ _ _ _ _ Hfm) as (p & x & Hp & Hx & He).
      exists p. split; [done|].
      destruct (guard_value_raises builtin_name info cv p x Hx) as [-> | Hr].
      * right. split; [done|]. by simplify_eq.
      * destruct x; try done; simplify_eq. left. eauto.
  - by rewrite (call_without_underline builtin_name info arg_list docstring cv Hd).
Qed.

(** C6.  When the guard clauses of the documentation are, in document order,
    [pre], then [g], then [post], every guard of [pre] evaluating to a false
    value and [g] to a true one, the guards evaluated are those of [pre], in
    that order, and then [g], none of [post]; and the call raises the error
    of [g]: its class and its message, filled in. *)
Theorem first_true_guard_wins (builtin_name : string → bool) info arg_list
    docstring (cv : dict) pre g post c :
  documented_guards cv docstring = Some (pre ++ g :: post, c) →
  Forall (evaluates_false builtin_name info cv) pre →
  evaluates_true builtin_name info cv g →
  let run := raise_if_slycot_error builtin_name info arg_list docstring cv in
  evaluated run.2 = (clause_predicate <$> pre) ++ [clause_predicate g]
  ∧ run.1 = match format (clause_message g) (eval_scope info cv) with
            | Val text => Raises (Slycot (clause_class g) (nl +:+ strip text) info)
            | Exc e => Raises e
            end.
Proof.
  intros Hd Hpre Hg.
  destruct (call_first_match builtin_name info arg_list docstring cv _ c Hd)
    as (E1 & _ & E3).
  cbn zeta. rewrite E1, E3.
  rewrite (first_match_first_true builtin_name info cv pre g post c Hpre Hg).
  split; [done|]. cbn [fst snd conclude].
  rewrite (documented_guards_message cv docstring _ c g Hd).
  - by destruct pre.
  - apply elem_of_app. right. left.
Qed.

(** An instance: two guards hold for status 2, and the first one is the
    error raised. *)
Lemma first_true_guard_wins_witness :
  documented_guards ∅ (Some Scenario.overlap_doc)
  = Some ([] ++ Guard SlycotArithmeticError "e.info > 0" ("positive" +:+ nl)
             :: [Guard SlycotParameterError "e.info > 1" ("above one" +:+ nl)],
          TextEnd)
  ∧ evaluates_true Scenario.builtin_name 2 ∅
      (Guard SlycotArithmeticError "e.info > 0" ("positive" +:+ nl))
  ∧ evaluates_true Scenario.builtin_name 2 ∅
      (Guard SlycotParameterError "e.info > 1" ("above one" +:+ nl))
  ∧ evaluated (raise_if_slycot_error Scenario.builtin_name 2 None
                 (Some Scenario.overlap_doc) ∅).2 = ["e.info > 0"]
  ∧ (raise_if_slycot_error Scenario.builtin_name 2 None
       (Some Scenario.overlap_doc) ∅).1
    = Raises (Slycot SlycotArithmeticError (nl +:+ "positive") 2).
Proof.
  assert (Hg : evaluates_true Scenario.builtin_name 2 ∅
                 (Guard SlycotArithmeticError "e.info > 0" ("positive" +:+ nl))).
  { exists (VBool true). split; vm_compute; reflexivity. }
  split_and!.
  - vm_compute. reflexivity.
  - exact Hg.
  - exists (VBool true). split; vm_compute; reflexivity.
  - refine (proj1 (first_true_guard_wins Scenario.builtin_name 2 None
      (Some Scenario.overlap_doc) ∅ [] _ _ TextEnd _ _ Hg));
      [vm_compute; reflexivity | constructor].
  - refine (proj2 (first_true_guard_wins Scenario.builtin_name 2 None
      (Some Scenario.overlap_doc) ∅ [] _ _ TextEnd _ _ Hg));
      [vm_compute; reflexivity | constructor].
Defined.

(** Every guard that is evaluated is entered in the log, and the log only
    grows. *)
Lemma evaluate_guard_evaluated builtin_name info k n p first docline w
    (continue : world → scan_end * world) :
  (∀ w', ∃ rest, evaluated (continue w').2 = evaluated w' ++ rest) →
  ∃ rest,
    evaluated (evaluate_guard builtin_name info k n p first docline w continue).2
    = evaluated w ++ p :: rest.
Proof.
  intros Hc. unfold evaluate_guard, eval.
  destruct (py_eval _ _ _) as [v|x].
  - destruct (truthy v); [by exists []|].
    destruct (Hc (World (with_builtins (<["e" := VErr "" info]> (checkvars w)))
                    (evaluated w ++ [p]) (stdout w))) as [rest ->].
    exists rest. cbn [evaluated]. by rewrite <- app_assoc.
  - by destruct x; exists [].
Qed.

Lemma scan_evaluated_extends builtin_name info section_indent docline :
  ∀ (h : header) w,
    ∃ rest,
      evaluated (scan builtin_name info section_indent h w docline).2
      = evaluated w ++ rest.
Proof.
  induction docline as [|l docline IH]; intros h w; cbn [scan].
  - exists []. by rewrite app_nil_r.
  - destruct (String.eqb (strip l) ""); [apply (IH h (print l w))|].
    destruct (negb _); [by exists []; rewrite app_nil_r|].
    destruct (header_after h l) as [[k error_indent]|]; [|apply (IH None (print l w))].
    destruct (imatch _ l) as [[[ws p] first]|]; [|apply (IH _ (print l w))].
    assert (Hg : ∃ rest,
      evaluated (evaluate_guard builtin_name info k (String.length ws) p first docline
                   (print l w)
                   (λ w', scan builtin_name info section_indent
                            (Some (k, error_indent)) w' docline)).2
      = evaluated w ++ rest).
    { destruct (evaluate_guard_evaluated builtin_name info k (String.length ws) p
                  first docline (print l w)
                  (λ w', scan builtin_name info section_indent
                           (Some (k, error_indent)) w' docline)) as [rest E].
      - intros w'. apply IH.
      - exists (p :: rest). exact E. }
    destruct (String.eqb p "e.info = -i"); [|exact Hg].
    destruct (checkvars (print l w) !! "i"); [exact Hg|apply (IH _ (print l w))].
Qed.

(** C7.  At a line of the section that the pattern of a guard clause
    matches, with predicate [p].  When [p] is the text "e.info = -i" and the
    dict binds no [i], the loop goes on to the next line: the clause is
    passed over, nothing is evaluated for it.  Otherwise, and so for the
    reserved text when the dict binds [i], the clause is a guard like any
    other: [p] is evaluated next; when its value is true the scan ends with
    the rule of the clause, and when it is false the loop goes on to the next
    line.  Over a whole call whose evaluated guards are expressions of the
    modelled kind (none of which binds a name): when the caller binds no [i],
    the reserved text is never evaluated.  And over a whole call in which
    the caller binds [i]: a clause with the reserved text whose guard is true,
    the guards before it being false, is evaluated after them, and the call
    raises its error. *)
Theorem reserved_predicate_needs_i (builtin_name : string → bool) info :
  (∀ section_indent (h : header) w l docline k error_indent ws p first,
     String.eqb (strip l) "" = false →
     isspace (take section_indent l) = true →
     header_after h l = Some (k, error_indent) →
     imatch (S error_indent) l = Some (ws, p, first) →
     let continue w' :=
       scan builtin_name info section_indent (Some (k, error_indent)) w' docline in
     let run := scan builtin_name info section_indent h w (l :: docline) in
     let w' := World (eval_scope info (checkvars w)) (evaluated w ++ [p])
                 (stdout w ++ [l]) in
     (p = "e.info = -i" ∧ checkvars w !! "i" = None → run = continue (print l w))
     ∧ (p ≠ "e.info = -i" ∨ is_Some (checkvars w !! "i") →
          (∃ rest, evaluated run.2 = evaluated w ++ p :: rest)
          ∧ (∀ v, guard_value builtin_name info (checkvars w) p = Val v →
                  truthy v = true →
                  run = (Rule k (message_of (String.length ws) first docline), w'))
          ∧ (∀ v, guard_value builtin_name info (checkvars w) p = Val v →
                  truthy v = false →
                  run = continue w')))
  ∧ (∀ arg_list docstring (cv : dict),
       cv !! "i" = None →
       Forall (in_fragment builtin_name info cv)
         (evaluated (raise_if_slycot_error builtin_name info arg_list docstring cv).2) →
       "e.info = -i"
       ∉ evaluated (raise_if_slycot_error builtin_name info arg_list docstring cv).2)
  ∧ (∀ arg_list docstring (cv : dict) pre k message post c,
       is_Some (cv !! "i") →
       documented_guards cv docstring
       = Some (pre ++ Guard k "e.info = -i" message :: post, c) →
       Forall (evaluates_false builtin_name info cv) pre →
       evaluates_true builtin_name info cv (Guard k "e.info = -i" message) →
       evaluated (raise_if_slycot_error builtin_name info arg_list docstring cv).2
       = (clause_predicate <$> pre) ++ ["e.info = -i"]
       ∧ (raise_if_slycot_error builtin_name info arg_list docstring cv).1
         = match format message (eval_scope info cv) with
           | Val text => Raises (Slycot k (nl +:+ strip text) info)
           | Exc e => Raises e
           end).
Proof.
  split_and!.
  - intros section_indent h w l docline k error_indent ws p first Hb Hs Hh Hi.
    cbn zeta.
    assert (Hscan :
      scan builtin_name info section_indent h w (l :: docline)
      = if String.eqb p "e.info = -i" && negb (binds_i (checkvars w))
        then scan builtin_name info section_indent (Some (k, error_indent))
               (print l w) docline
        else evaluate_guard builtin_name info k (String.length ws) p first docline
               (print l w)
               (λ w', scan builtin_name info section_indent
                        (Some (k, error_indent)) w' docline)).
    { cbn [scan]. rewrite Hb, Hs. cbn [negb]. rewrite Hh, Hi.
      unfold binds_i. cbn [print checkvars].
      destruct (String.eqb p "e.info = -i"); [|done].
      by destruct (checkvars w !! "i"). }
    split.
    + intros [-> Hnone]. rewrite Hscan. unfold binds_i. by rewrite Hnone.
    + intros Hguard.
      assert (Hgo :
        scan builtin_name info section_indent h w (l :: docline)
        = evaluate_guard builtin_name info k (String.length ws) p first docline
            (print l w)
            (λ w', scan builtin_name info section_indent
                     (Some (k, error_indent)) w' docline)).
      { rewrite Hscan. destruct Hguard as [Hp | [x Hx]].
        - by rewrite (proj2 (String.eqb_neq p "e.info = -i") Hp).
        - unfold binds_i. rewrite Hx. by rewrite andb_false_r. }
      rewrite Hgo. split_and!.
      * apply (evaluate_guard_evaluated builtin_name info k (String.length ws) p first
                 docline (print l w)).
        intros w'. apply scan_evaluated_extends.
      * intros v Hv Ht. unfold evaluate_guard, eval.
        unfold guard_value, eval_scope in Hv. cbn [print checkvars].
        by rewrite Hv, Ht.
      * intros v Hv Ht. unfold evaluate_guard, eval.
        unfold guard_value, eval_scope in Hv. cbn [print checkvars].
        by rewrite Hv, Ht.
  - intros arg_list docstring cv Hi _ Hin.
    destruct (documented_guards cv docstring) as [[gs c]|] eqn:Hd.
    + destruct (call_first_match builtin_name info arg_list docstring cv gs c Hd)
        as (E1 & _ & _).
      rewrite E1 in Hin.
      destruct (first_match_log_guard builtin_name info cv gs c _ Hin) as (g & Hg & Hp).
      by apply (documented_guards_reserved cv docstring gs c g Hi Hd Hg).
    + rewrite (call_without_underline builtin_name info arg_list docstring cv Hd) in Hin.
      by apply elem_of_nil in Hin.
  - intros arg_list docstring cv pre k message post c _ Hd Hpre Hg.
    destruct (call_first_match builtin_name info arg_list docstring cv _ c Hd)
      as (E1 & _ & E3).
    rewrite E1, E3.
    rewrite (first_match_first_true builtin_name info cv pre _ post c Hpre Hg).
    split; [done|]. cbn [fst snd conclude].
    rewrite (documented_guards_message cv docstring _ c
               (Guard k "e.info = -i" message) Hd).
    + by destruct pre.
    + apply elem_of_app. right. left.
Qed.

(** Instances, at the line of the reserved guard and with status -2: with
    [i] unbound the line is passed over; with [i] bound to 2 the guard is
    evaluated and its rule applies.  A call that binds no [i]: the guard
    before the reserved one is evaluated, the reserved one is not.  A call
    that binds [i] to 2: the error of the reserved clause is raised. *)
Lemma reserved_predicate_needs_i_witness :
  (String.eqb (strip Scenario.reserved_line) "" = false
   ∧ isspace (take 4 Scenario.reserved_line) = true
   ∧ header_after (Some (SlycotParameterError, 4%nat)) Scenario.reserved_line
     = Some (SlycotParameterError, 4%nat)
   ∧ imatch 5 Scenario.reserved_line
     = Some ("        ", "e.info = -i", "argument {i} is illegal"))
  ∧ scan Scenario.builtin_name (-2) 4 (Some (SlycotParameterError, 4%nat))
      (World ∅ [] []) [Scenario.reserved_line]
    = (NoRule, World ∅ [] [Scenario.reserved_line])
  ∧ guard_value Scenario.builtin_name (-2) (<["i" := VInt 2]> ∅) "e.info = -i"
    = Val (VBool true)
  ∧ scan Scenario.builtin_name (-2) 4 (Some (SlycotParameterError, 4%nat))
      (World (<["i" := VInt 2]> ∅) [] []) [Scenario.reserved_line]
    = (Rule SlycotParameterError ("argument {i} is illegal" +:+ nl),
       World (eval_scope (-2) (<["i" := VInt 2]> ∅)) ["e.info = -i"]
         [Scenario.reserved_line])
  ∧ (∅ : dict) !! "i" = None
  ∧ Forall (in_fragment Scenario.builtin_name (-2) ∅)
      (evaluated (raise_if_slycot_error Scenario.builtin_name (-2)
                    (Some Scenario.fun_args) (Some More_inputs.reserved_second_doc) ∅).2)
  ∧ ("e.info = -i"
     ∉ evaluated (raise_if_slycot_error Scenario.builtin_name (-2)
                    (Some Scenario.fun_args) (Some More_inputs.reserved_second_doc) ∅).2)
  ∧ is_Some ((<["i" := VInt 2]> ∅ : dict) !! "i")
  ∧ documented_guards (<["i" := VInt 2]> ∅) (Some More_inputs.reserved_second_doc)
    = Some ([Guard SlycotArithmeticError "e.info = 1" ("Info is 1" +:+ nl)]
              ++ Guard SlycotParameterError "e.info = -i"
                   ("argument {i} is illegal" +:+ nl) :: [],
            TextEnd)
  ∧ evaluated (raise_if_slycot_error Scenario.builtin_name (-2)
                 (Some Scenario.fun_args) (Some More_inputs.reserved_second_doc)
                 (<["i" := VInt 2]> ∅)).2
    = ["e.info = 1"; "e.info = -i"]
  ∧ (raise_if_slycot_error Scenario.builtin_name (-2)
       (Some Scenario.fun_args) (Some More_inputs.reserved_second_doc)
       (<["i" := VInt 2]> ∅)).1
    = Raises (Slycot SlycotParameterError (nl +:+ "argument 2 is illegal") (-2)).
Proof.
  pose proof (reserved_predicate_needs_i Scenario.builtin_name (-2))
    as (Hstep & Hcall & Hbound).
  assert (Hi2 : is_Some ((<["i" := VInt 2]> ∅ : dict) !! "i")) by (by exists (VInt 2)).
  assert (Hd2 : documented_guards (<["i" := VInt 2]> ∅)
                  (Some More_inputs.reserved_second_doc)
                = Some ([Guard SlycotArithmeticError "e.info = 1" ("Info is 1" +:+ nl)]
                          ++ Guard SlycotParameterError "e.info = -i"
                               ("argument {i} is illegal" +:+ nl) :: [],
                        TextEnd)) by (vm_compute; reflexivity).
  pose proof (Hbound (Some Scenario.fun_args) (Some More_inputs.reserved_second_doc)
                (<["i" := VInt 2]> ∅) _ _ _ _ _ Hi2 Hd2
                ltac:(repeat constructor; exists (VBool false); split;
                      vm_compute; reflexivity)
                ltac:(exists (VBool true); split; vm_compute; reflexivity))
    as [Hlog Hout].
  assert (Hv : guard_value Scenario.builtin_name (-2) (<["i" := VInt 2]> ∅) "e.info = -i"
               = Val (VBool true)) by (vm_compute; reflexivity).
  assert (Hfrag : Forall (in_fragment Scenario.builtin_name (-2) ∅)
            (evaluated (raise_if_slycot_error Scenario.builtin_name (-2)
               (Some Scenario.fun_args) (Some More_inputs.reserved_second_doc) ∅).2)).
  { replace (evaluated _) with ["e.info = 1"] by (vm_compute; reflexivity).
    repeat constructor. vm_compute. discriminate. }
  split_and!.
  - vm_compute; reflexivity.
  - vm_compute; reflexivity.
  - vm_compute; reflexivity.
  - vm_compute; reflexivity.
  - rewrite (proj1 (Hstep 4%nat (Some (SlycotParameterError, 4%nat)) (World ∅ [] [])
               Scenario.reserved_line [] SlycotParameterError
               4%nat "        " "e.info = -i" "argument {i} is illegal"
               ltac:(vm_compute; reflexivity) ltac:(vm_compute; reflexivity)
               ltac:(vm_compute; reflexivity) ltac:(vm_compute; reflexivity)));
      [reflexivity | split; reflexivity].
  - exact Hv.
  - refine (proj1 (proj2 (proj2 (Hstep 4%nat (Some (SlycotParameterError, 4%nat))
               (World (<["i" := VInt 2]> ∅) [] []) Scenario.reserved_line []
               SlycotParameterError 4%nat "        " "e.info = -i"
               "argument {i} is illegal"
               ltac:(vm_compute; reflexivity) ltac:(vm_compute; reflexivity)
               ltac:(vm_compute; reflexivity) ltac:(vm_compute; reflexivity)) _))
             (VBool true) Hv eq_refl).
    right. by exists (VInt 2).
  - reflexivity.
  - exact Hfrag.
  - apply Hcall; [reflexivity | exact Hfrag].
  - exact Hi2.
  - exact Hd2.
  - exact Hlog.
  - rewrite Hout. vm_compute. reflexivity.
Defined.

(** With status 5 the message is not the one that starts with 4, with or
    without the newline that line 184 puts first. *)
Lemma status_5_message_starts_with_5 :
  (raise_if_slycot_error Scenario.builtin_name 5 (Some Scenario.fun_args)
     (Some Scenario.fun_doc) Scenario.fun_vars).1
  ≠ Raises (Slycot SlycotArithmeticError
              (nl +:+ "4 is between 4 and    1.2e+02!") 5)
  ∧ (raise_if_slycot_error Scenario.builtin_name 5 (Some Scenario.fun_args)
       (Some Scenario.fun_doc) Scenario.fun_vars).1
    ≠ Raises (Slycot SlycotArithmeticError "4 is between 4 and    1.2e+02!" 5).
Proof. split; vm_compute; discriminate. Qed.

(** C8.  The claim, and with it the example in the docstring of the
    function (lines 110 and 111): in the documented scenario, with [n = 4]
    and [m = 120.0], status 5 raises the arithmetic error whose message is
    "4 is between 4 and    1.2e+02!".  The code fills the template with the
    status of the call: the message of status 5 starts with 5.  What the call
    raises is the arithmetic error whose message is a newline followed by:
    "Info is 1" for status 1; "Info is 2, which is between 1 and 4" for
    status 2; "5 is between 4 and    1.2e+02!" for status 5. *)
Theorem documented_scenario (builtin_name : string → bool) :
  let run info := (raise_if_slycot_error builtin_name info (Some Scenario.fun_args)
                     (Some Scenario.fun_doc) Scenario.fun_vars).1 in
  run 1 = Raises (Slycot SlycotArithmeticError (nl +:+ "Info is 1") 1)
  ∧ run 2 = Raises (Slycot SlycotArithmeticError
                      (nl +:+ "Info is 2, which is between 1 and 4") 2)
  ∧ run 5 = Raises (Slycot SlycotArithmeticError
                      (nl +:+ "5 is between 4 and    1.2e+02!") 5).
Proof. split_and!; vm_compute; reflexivity. Qed.

(** The message that the example shows for status 5 is the one the code
    gives for status 4; statuses 0 and -1 are as the example shows. *)
Lemma documented_scenario_others (builtin_name : string → bool) :
  let run info := (raise_if_slycot_error builtin_name info (Some Scenario.fun_args)
                     (Some Scenario.fun_doc) Scenario.fun_vars).1 in
  run 4 = Raises (Slycot SlycotArithmeticError
                    (nl +:+ "4 is between 4 and    1.2e+02!") 4)
  ∧ run 0 = Returns
  ∧ run (-1) = Raises (Slycot SlycotParameterError
                         "The following argument had an illegal value: a" (-1)).
Proof. split_and!; vm_compute; reflexivity. Qed.

(** The same with [info] among the bindings, as [locals()] has it in the
    example of the source. *)
Lemma documented_scenario_locals (builtin_name : string → bool) :
  let run info := (raise_if_slycot_error builtin_name info (Some Scenario.fun_args)
                     (Some Scenario.fun_doc)
                     (<["info" := VInt info]> Scenario.fun_vars)).1 in
  run 1 = Raises (Slycot SlycotArithmeticError (nl +:+ "Info is 1") 1)
  ∧ run 2 = Raises (Slycot SlycotArithmeticError
                      (nl +:+ "Info is 2, which is between 1 and 4") 2)
  ∧ run 5 = Raises (Slycot SlycotArithmeticError
                      (nl +:+ "5 is between 4 and    1.2e+02!") 5).
Proof. split_and!; vm_compute; reflexivity. Qed.

(** With status 0 the call returns, be there no documentation, or
    documentation whose title line, if it has one, is followed by a line
    with a dash, and all of whose guards evaluate to a false value. *)
Lemma zero_status_returns (builtin_name : string → bool) arg_list (cv : dict) :
  (raise_if_slycot_error builtin_name 0 arg_list None cv).1 = Returns
  ∧ ∀ doc gs c,
      documented_guards cv (Some doc) = Some (gs, c) →
      Forall (evaluates_false builtin_name 0 cv) gs →
      (raise_if_slycot_error builtin_name 0 arg_list (Some doc) cv).1 = Returns.
Proof.
  split.
  - cbn. by apply fallback_nonnegative.
  - intros doc gs c Hd Hall. rewrite (unmatched_call _ _ _ _ _ gs c Hd Hall).
    destruct c; [by apply fallback_nonnegative | done].
Qed.

(** An instance: the documented scenario with status 0. *)
Lemma zero_status_returns_witness :
  documented_guards Scenario.fun_vars (Some Scenario.fun_doc)
  = Some (Scenario.fun_guards, TextEnd)
  ∧ Forall (evaluates_false Scenario.builtin_name 0 Scenario.fun_vars) Scenario.fun_guards
  ∧ (raise_if_slycot_error Scenario.builtin_name 0 (Some Scenario.fun_args)
       (Some Scenario.fun_doc) Scenario.fun_vars).1 = Returns.
Proof.
  split_and!.
  - apply fun_doc_guards.
  - apply fun_guards_false. right. by left.
  - apply (proj2 (zero_status_returns Scenario.builtin_name (Some Scenario.fun_args)
                    Scenario.fun_vars) Scenario.fun_doc Scenario.fun_guards TextEnd).
    + apply fun_doc_guards.
    + apply fun_guards_false. right. by left.
Defined.

(** C9.  The claim: with status 0 the call returns, be there no
    documentation, or documentation whose guards all evaluate to a false
    value.  The code misses one case, the one that makes documentation of
    an unexpected shape raise: the title line of the docstring below is
    followed by no underline, its one guard is false for status 0,
    and line 124 raises [ValueError], with no argument list and no binding,
    although the function is documented (line 49) to raise for a status
    other than zero.  For the docstrings that have the underline the claim
    holds: [zero_status_returns]. *)
Theorem zero_status_without_underline_raises (builtin_name : string → bool) :
  after_raises (splitlines Scenario.no_underline_doc)
  = Some ["    SlycotArithmeticError : e"; "        :e.info = 1: Info is 1"]
  ∧ index "-" "    SlycotArithmeticError : e" = None
  ∧ guard_value builtin_name 0 ∅ "e.info = 1" = Val (VBool false)
  ∧ raise_if_slycot_error builtin_name 0 None (Some Scenario.no_underline_doc) ∅
    = (Raises ValueError, World ∅ [] []).
Proof. split_and!; vm_compute; reflexivity. Qed.

(** C10, the claim as stated fails: with status 2 no guard of the docstring
    below evaluates to a true value before the scan ends (its one guard
    raises [NameError], for [n] is unbound), and the call does not return: it
    raises [RuntimeError]. *)
Lemma positive_status_guard_raises :
  0 < 2
  ∧ documented_guards ∅ (Some Scenario.short_circuit_doc)
    = Some ([Guard SlycotArithmeticError "e.info > 1 and e.info < n"
               ("Info is between 1 and {n}" +:+ nl)], TextEnd)
  ∧ guard_value Scenario.builtin_name 2 ∅ "e.info > 1 and e.info < n"
    = Exc (NameError "n")
  ∧ ¬ evaluates_true Scenario.builtin_name 2 ∅
        (Guard SlycotArithmeticError "e.info > 1 and e.info < n"
           ("Info is between 1 and {n}" +:+ nl))
  ∧ (raise_if_slycot_error Scenario.builtin_name 2 (Some Scenario.fun_args)
       (Some Scenario.short_circuit_doc) ∅).1
    = Raises (RuntimeError "Unknown variable in infospec: e.info > 1 and e.info < n")
  ∧ (raise_if_slycot_error Scenario.builtin_name 2 (Some Scenario.fun_args)
       (Some Scenario.short_circuit_doc) ∅).1 ≠ Returns.
Proof.
  split_and!; try (vm_compute; reflexivity).
  - intros (v & Hv & _). vm_compute in Hv. discriminate.
  - vm_compute. discriminate.
Qed.

(** C10, amended.  With a positive status the call returns when there is no
    documentation, and when the documentation (its title line, if it has
    one, being followed by a line with a dash) is such that every guard
    evaluates to a false value: lines 187 to 190 act on a negative status
    only. *)
Theorem positive_status_unmatched_returns (builtin_name : string → bool) info
    arg_list (cv : dict) :
  0 < info →
  (raise_if_slycot_error builtin_name info arg_list None cv).1 = Returns
  ∧ ∀ doc gs c,
      documented_guards cv (Some doc) = Some (gs, c) →
      Forall (evaluates_false builtin_name info cv) gs →
      (raise_if_slycot_error builtin_name info arg_list (Some doc) cv).1 = Returns.
Proof.
  intros Hpos. split.
  - cbn. apply fallback_nonnegative. lia.
  - intros doc gs c Hd Hall. rewrite (unmatched_call _ _ _ _ _ gs c Hd Hall).
    destruct c; [apply fallback_nonnegative; lia | done].
Qed.

(** An instance: the documented scenario with status 200. *)
Lemma positive_status_unmatched_returns_witness :
  0 < 200
  ∧ documented_guards Scenario.fun_vars (Some Scenario.fun_doc)
    = Some (Scenario.fun_guards, TextEnd)
  ∧ Forall (evaluates_false Scenario.builtin_name 200 Scenario.fun_vars) Scenario.fun_guards
  ∧ (raise_if_slycot_error Scenario.builtin_name 200 (Some Scenario.fun_args)
       (Some Scenario.fun_doc) Scenario.fun_vars).1 = Returns.
Proof.
  split_and!.
  - lia.
  - apply fun_doc_guards.
  - apply fun_guards_false. right. by right.
  - apply (proj2 (positive_status_unmatched_returns Scenario.builtin_name 200
                    (Some Scenario.fun_args) Scenario.fun_vars ltac:(lia))
             Scenario.fun_doc Scenario.fun_guards TextEnd).
    + apply fun_doc_guards.
    + apply fun_guards_false. right. by right.
Defined.

(** * Further properties of the function *)

Import Classes Section_lines.

Section Further.
Variable builtin_name : string -> bool.

(** A rule comes from a guard clause that evaluated to a true value. *)
Lemma first_match_rule info (cv : dict) gs c k message :
  (first_match builtin_name info cv gs c).1 = Rule k message →
  (first_match builtin_name info cv gs c).2 ≠ []
  ∧ ∃ g, g ∈ gs ∧ evaluates_true builtin_name info cv g
         ∧ k = clause_class g ∧ message = clause_message g.
Proof.
  induction gs as [|g gs IH]; cbn [first_match].
  - by destruct c.
  - destruct (guard_value builtin_name info cv (clause_predicate g)) as [v|x] eqn:Hg.
    + destruct (truthy v) eqn:Ht.
      * intros [= <- <-]. split; [done|]. exists g. split_and!; [by left| |done|done].
        by exists v.
      * destruct (first_match builtin_name info cv gs c) as [r log]. cbn [fst snd] in *.
        intros Hr. destruct (IH Hr) as (_ & g0 & Hin & Hg0).
        split; [done|]. exists g0. split; [by right|done].
    + by destruct x.
Qed.

(** The evaluations are those of a run of false guards, and then of at most
    one more guard, which is not false. *)
Lemma first_match_log_shape info (cv : dict) gs c :
  ∃ pre rest,
    gs = pre ++ rest
    ∧ Forall (evaluates_false builtin_name info cv) pre
    ∧ (first_match builtin_name info cv gs c).2
      = clause_predicate <$> (pre ++ firstn 1 rest)
    ∧ (rest = []
       ∨ ∃ g rest', rest = g :: rest' ∧ ¬ evaluates_false builtin_name info cv g).
Proof.
  induction gs as [|g gs IH].
  - exists [], []. split_and!; [done|constructor|done|by left].
  - cbn [first_match].
    assert (Hstop : ¬ evaluates_false builtin_name info cv g →
      ∃ pre rest, g :: gs = pre ++ rest
        ∧ Forall (evaluates_false builtin_name info cv) pre
        ∧ [clause_predicate g] = clause_predicate <$> (pre ++ firstn 1 rest)
        ∧ (rest = [] ∨ ∃ g0 rest', rest = g0 :: rest'
                        ∧ ¬ evaluates_false builtin_name info cv g0)).
    { intros Hn. exists [], (g :: gs). split_and!; [done|constructor|done|].
      right. by exists g, gs. }
    destruct (guard_value builtin_name info cv (clause_predicate g)) as [v|x] eqn:Hg.
    + destruct (truthy v) eqn:Ht.
      * apply Hstop. intros (v' & Hv' & Hf). congruence.
      * destruct IH as (pre & rest & -> & Hpre & Hlog & Hrest).
        destruct (first_match builtin_name info cv (pre ++ rest) c) as [r log].
        cbn [fst snd] in *. exists (g :: pre), rest.
        split_and!; [done| |by rewrite Hlog|done].
        constructor; [by exists v|done].
    + assert (Hn : ¬ evaluates_false builtin_name info cv g).
      { intros (v' & Hv' & _). congruence. }
      destruct x; by apply Hstop.
Qed.

(** The outcome and the evaluations depend on the dict through the scope of
    the evaluations and through whether it binds [i]. *)
Lemma first_match_scope info (cv1 cv2 : dict) gs c :
  eval_scope info cv1 = eval_scope info cv2 →
  first_match builtin_name info cv1 gs c = first_match builtin_name info cv2 gs c.
Proof.
  intros Hs. induction gs as [|g gs IH]; [done|].
  cbn [first_match]. unfold guard_value. by rewrite Hs, IH.
Qed.

Lemma documented_guards_binds_i (cv1 cv2 : dict) docstring :
  binds_i cv1 = binds_i cv2 →
  documented_guards cv1 docstring = documented_guards cv2 docstring.
Proof. intros H. unfold documented_guards. by rewrite H. Qed.

Lemma call_scope info arg_list docstring (cv1 cv2 : dict) :
  binds_i cv1 = binds_i cv2 →
  eval_scope info cv1 = eval_scope info cv2 →
  (raise_if_slycot_error builtin_name info arg_list docstring cv1).1
  = (raise_if_slycot_error builtin_name info arg_list docstring cv2).1
  ∧ evaluated (raise_if_slycot_error builtin_name info arg_list docstring cv1).2
    = evaluated (raise_if_slycot_error builtin_name info arg_list docstring cv2).2.
Proof.
  intros Hi Hs.
  pose proof (documented_guards_binds_i cv1 cv2 docstring Hi) as Hd.
  destruct (documented_guards cv2 docstring) as [[gs c]|] eqn:Hd2.
  - destruct (call_first_match builtin_name info arg_list docstring cv1 gs c Hd)
      as (E1 & _ & E3).
    destruct (call_first_match builtin_name info arg_list docstring cv2 gs c Hd2)
      as (F1 & _ & F3).
    rewrite E1, E3, F1, F3, (first_match_scope info cv1 cv2 gs c Hs).
    split; [|done].
    destruct (first_match builtin_name info cv2 gs c) as [r log] eqn:Hfm.
    cbn [fst snd]. destruct r as [| |k message|e]; try done.
    destruct (first_match_rule info cv2 gs c k message) as [Hlog _];
      [by rewrite Hfm|].
    rewrite Hfm in Hlog. cbn [snd] in Hlog. destruct log; [done|].
    cbn [log_dict]. by rewrite Hs.
  - by rewrite !call_without_underline.
Qed.

Lemma eval_scope_insert_e info v (cv : dict) :
  eval_scope info (<["e" := v]> cv) = eval_scope info cv.
Proof. unfold eval_scope. by rewrite insert_insert_eq. Qed.

Lemma eval_scope_eval_scope info info' (cv : dict) :
  eval_scope info (eval_scope info' cv) = eval_scope info cv.
Proof.
  apply map_eq. intros k.
  destruct (decide (k = "e")) as [->|He]; [by rewrite !eval_scope_e|].
  destruct (decide (k = "__builtins__")) as [->|Hb].
  - unfold eval_scope, with_builtins.
    rewrite !lookup_insert_ne by done.
    destruct (cv !! "__builtins__") as [b|] eqn:E.
    + rewrite !lookup_insert_ne by done. rewrite E.
      rewrite !lookup_insert_ne by done. done.
    + rewrite lookup_insert_eq. rewrite lookup_insert_ne by done.
      by rewrite !lookup_insert_eq.
  - by rewrite !eval_scope_other.
Qed.


(** What [print] has written when the loop stops: the lines it went over,
    all of them when it ran to the end of the text. *)
Lemma scan_stdout info section_indent docline :
  ∀ (h : header) (w : world),
    let r := scan builtin_name info section_indent h w docline in
    (∃ k, stdout r.2 = stdout w ++ firstn k docline)
    ∧ (r.1 = NoRule → stdout r.2 = stdout w ++ docline).
Proof.
  induction docline as [|l docline IH]; intros h w; cbn zeta.
  - cbn. split; [exists 0%nat|]; by rewrite app_nil_r.
  - cbn [scan].
    assert (Hnext : ∀ h' w', stdout w' = stdout w ++ [l] →
      (∃ k, stdout (scan builtin_name info section_indent h' w' docline).2
            = stdout w ++ firstn k (l :: docline))
      ∧ ((scan builtin_name info section_indent h' w' docline).1 = NoRule →
         stdout (scan builtin_name info section_indent h' w' docline).2
         = stdout w ++ l :: docline)).
    { intros h' w' Hw'. destruct (IH h' w') as [[k Hk] Hall]. split.
      - exists (S k). rewrite Hk, Hw'. cbn [firstn]. by rewrite <- app_assoc.
      - intros Hn. rewrite (Hall Hn), Hw'. by rewrite <- app_assoc. }
    assert (Hstop : ∀ (r : scan_end) (w' : world), r ≠ NoRule →
      stdout w' = stdout w ++ [l] →
      (∃ k, stdout (r, w').2 = stdout w ++ firstn k (l :: docline))
      ∧ ((r, w').1 = NoRule → stdout (r, w').2 = stdout w ++ l :: docline)).
    { intros r w' Hr Hw'. split; [by exists 1%nat|done]. }
    destruct (String.eqb (strip l) ""); [by apply Hnext|].
    destruct (isspace (take section_indent l)); cbn [negb]; [|by apply Hstop].
    destruct (header_after h l) as [[k error_indent]|]; [|by apply Hnext].
    destruct (imatch (S error_indent) l) as [[[ws infospec] first]|]; [|by apply Hnext].
    assert (Hguard : ∀ w0, stdout w0 = stdout w ++ [l] →
      let r := evaluate_guard builtin_name info k (String.length ws) infospec first
                 docline w0
                 (λ w', scan builtin_name info section_indent (Some (k, error_indent))
                          w' docline) in
      (∃ n, stdout r.2 = stdout w ++ firstn n (l :: docline))
      ∧ (r.1 = NoRule → stdout r.2 = stdout w ++ l :: docline)).
    { intros w0 Hw0. unfold evaluate_guard, eval.
      destruct (py_eval builtin_name _ _) as [v|x].
      - destruct (truthy v); [by apply Hstop | by apply Hnext].
      - destruct x; by apply Hstop. }
    destruct (String.eqb infospec "e.info = -i"); [|by apply Hguard].
    cbn [print checkvars]. destruct (checkvars w !! "i"); [by apply Hguard | by apply Hnext].
Qed.

End Further.

(** ** Which errors a call raises *)

(** The parameter error of lines 187 to 190. *)
Lemma fallback_raises info arg_list e :
  fallback info arg_list = Raises e →
  e = IndexError
  ∨ (info < 0 ∧ ∃ args name, arg_list = Some args
       ∧ args !! Z.to_nat (- info - 1) = Some name
       ∧ e = Slycot SlycotParameterError (illegal_value name) info).
Proof.
  unfold fallback. destruct arg_list as [[|a args]|]; try done.
  destruct (info <? 0) eqn:Hi; [|done]. apply Z.ltb_lt in Hi.
  destruct ((a :: args) !! Z.to_nat (- info - 1)) as [name|] eqn:Hn; intros [= <-].
  - right. split; [done|]. by exists (a :: args), name.
  - by left.
Qed.

(** Where a domain error comes from. *)
Lemma raised_slycot builtin_name info arg_list docstring (cv : dict) k m i :
  (raise_if_slycot_error builtin_name info arg_list docstring cv).1
    = Raises (Slycot k m i) →
  i = info
  ∧ ((∃ gs c g text,
        documented_guards cv docstring = Some (gs, c) ∧ g ∈ gs
        ∧ evaluates_true builtin_name info cv g ∧ k = clause_class g
        ∧ format (clause_message g) (eval_scope info cv) = Val text
        ∧ m = nl +:+ strip text)
     ∨ (k = SlycotParameterError ∧ info < 0
        ∧ ∃ args name, arg_list = Some args
            ∧ args !! Z.to_nat (- info - 1) = Some name
            ∧ m = illegal_value name)).
Proof.
  assert (Hfb : fallback info arg_list = Raises (Slycot k m i) →
    i = info ∧ k = SlycotParameterError ∧ info < 0
    ∧ ∃ args name, arg_list = Some args
        ∧ args !! Z.to_nat (- info - 1) = Some name ∧ m = illegal_value name).
  { intros [?|(Hi & args & name & -> & Hn & He)]%fallback_raises; [done|].
    simplify_eq. split_and!; try done. by exists args, name. }
  destruct (documented_guards cv docstring) as [[gs c]|] eqn:Hd.
  - destruct (call_first_match builtin_name info arg_list docstring cv gs c Hd)
      as (_ & _ & ->).
    destruct (first_match builtin_name info cv gs c) as [r log] eqn:Hfm.
    cbn [fst snd]. destruct r as [| |k' message|e]; cbn [conclude].
    + done.
    + intros H. destruct (Hfb H) as (? & ? & ? & ?). split; [done|]. by right.
    + destruct (first_match_rule builtin_name info cv gs c k' message)
        as (Hlog & g & Hin & Ht & -> & ->); [by rewrite Hfm|].
      rewrite Hfm in Hlog. cbn [snd] in Hlog.
      destruct (negb _).
      * destruct log; [done|]. cbn [log_dict].
        destruct (format (clause_message g) (eval_scope info cv)) as [text|x] eqn:Hf.
        -- intros [= <- <- <-]. split; [done|]. left. by exists gs, c, g, text.
        -- intros [= ->]. by apply format_raises in Hf.
      * intros H. destruct (Hfb H) as (? & ? & ? & ?). split; [done|]. by right.
    + intros [= ->].
      destruct (first_match_failed builtin_name info cv gs c _ ltac:(by rewrite Hfm))
        as (p & x & _ & Hx & He).
      destruct (guard_value_raises builtin_name info cv p x Hx) as [-> | Hr]; [done|].
      by destruct x.
  - by rewrite (call_without_underline builtin_name info arg_list docstring cv Hd).
Qed.

(** X1.  A domain error that a call raises carries the status of the call.
    It is either the error of a guard clause of the docstring that evaluated
    to a true value, with the class of its definition term and, as message, a
    newline and the filled-in template stripped; or, for a negative status,
    the parameter error that names the argument at position [-status - 1] of
    the argument list. *)
Theorem domain_error_origin (builtin_name : string → bool) info arg_list docstring
    (cv : dict) k m i :
  (raise_if_slycot_error builtin_name info arg_list docstring cv).1
    = Raises (Slycot k m i) →
  i = info
  ∧ ((∃ gs c g text,
        documented_guards cv docstring = Some (gs, c) ∧ g ∈ gs
        ∧ evaluates_true builtin_name info cv g ∧ k = clause_class g
        ∧ format (clause_message g) (eval_scope info cv) = Val text
        ∧ m = nl +:+ strip text)
     ∨ (k = SlycotParameterError ∧ info < 0
        ∧ ∃ args name, arg_list = Some args
            ∧ args !! Z.to_nat (- info - 1) = Some name
            ∧ m = "The following argument had an illegal value: " +:+ name)).
Proof. apply raised_slycot. Qed.

(** An instance: the documented scenario with status 2. *)
Lemma domain_error_origin_witness :
  (raise_if_slycot_error Scenario.builtin_name 2 (Some Scenario.fun_args)
     (Some Scenario.fun_doc) Scenario.fun_vars).1
  = Raises (Slycot SlycotArithmeticError
              (nl +:+ "Info is 2, which is between 1 and 4") 2)
  ∧ 2 = 2.
Proof.
  assert (H : (raise_if_slycot_error Scenario.builtin_name 2 (Some Scenario.fun_args)
                 (Some Scenario.fun_doc) Scenario.fun_vars).1
              = Raises (Slycot SlycotArithmeticError
                          (nl +:+ "Info is 2, which is between 1 and 4") 2))
    by (vm_compute; reflexivity).
  split; [exact H|].
  exact (proj1 (domain_error_origin Scenario.builtin_name 2 (Some Scenario.fun_args)
                  (Some Scenario.fun_doc) Scenario.fun_vars _ _ _ H)).
Defined.

(** X2.  When the line after the first line that holds "Raises" holds no
    dash, the call raises [ValueError], whatever the status, the argument
    list and the bindings; it evaluates and prints nothing and leaves the
    dict as it was. *)
Theorem missing_dash_raises_ValueError (builtin_name : string → bool) info
    arg_list doc (cv : dict) underline docline :
  after_raises (splitlines doc) = Some (underline :: docline) →
  index "-" underline = None →
  raise_if_slycot_error builtin_name info arg_list (Some doc) cv
  = (Raises ValueError, World cv [] []).
Proof.
  intros Ha Hi. apply call_without_underline. unfold documented_guards.
  destruct doc as [|ch doc]; [done|]. by rewrite Ha, Hi.
Qed.

(** An instance: the title is followed by a definition term. *)
Lemma missing_dash_raises_ValueError_witness :
  after_raises (splitlines Scenario.no_underline_doc)
  = Some ["    SlycotArithmeticError : e"; "        :e.info = 1: Info is 1"]
  ∧ index "-" "    SlycotArithmeticError : e" = None
  ∧ raise_if_slycot_error Scenario.builtin_name (-1) (Some Scenario.fun_args)
      (Some Scenario.no_underline_doc) Scenario.fun_vars
    = (Raises ValueError, World Scenario.fun_vars [] []).
Proof.
  split_and!; [vm_compute; reflexivity | vm_compute; reflexivity |].
  apply (missing_dash_raises_ValueError Scenario.builtin_name (-1)
           (Some Scenario.fun_args) Scenario.no_underline_doc Scenario.fun_vars
           "    SlycotArithmeticError : e" ["        :e.info = 1: Info is 1"]);
    vm_compute; reflexivity.
Defined.

(** X3.  A docstring in which no line holds "Raises", or in which the first
    such line is the last line, is passed over: the call does what lines 187
    to 190 do, evaluates and prints nothing and leaves the dict as it was. *)
Theorem no_section_falls_back (builtin_name : string → bool) info arg_list doc
    (cv : dict) :
  after_raises (splitlines doc) = None ∨ after_raises (splitlines doc) = Some [] →
  raise_if_slycot_error builtin_name info arg_list (Some doc) cv
  = (fallback info arg_list, World cv [] []).
Proof.
  unfold raise_if_slycot_error, scan_docstring.
  destruct doc as [|ch doc]; [done|]. by intros [-> | ->].
Qed.

(** An instance: a docstring with a Returns section only, and status -2. *)
Lemma no_section_falls_back_witness :
  after_raises (splitlines More_inputs.plain_doc) = None
  ∧ raise_if_slycot_error Scenario.builtin_name (-2) (Some Scenario.fun_args)
      (Some More_inputs.plain_doc) Scenario.fun_vars
    = (Raises (Slycot SlycotParameterError
                 "The following argument had an illegal value: b" (-2)),
       World Scenario.fun_vars [] []).
Proof.
  split; [vm_compute; reflexivity|].
  rewrite (no_section_falls_back Scenario.builtin_name (-2) (Some Scenario.fun_args)
             More_inputs.plain_doc Scenario.fun_vars);
    [reflexivity | left; vm_compute; reflexivity].
Defined.

(** X4 is [closed_section_returns], above.  An instance: status -3 and
    three arguments. *)
Lemma closed_section_returns_witness :
  documented_guards ∅ (Some Scenario.closed_doc)
  = Some ([Guard SlycotArithmeticError "e.info = 1" ("Info is 1" +:+ nl)], Dedent)
  ∧ Forall (evaluates_false Scenario.builtin_name (-3) ∅)
      [Guard SlycotArithmeticError "e.info = 1" ("Info is 1" +:+ nl)]
  ∧ (raise_if_slycot_error Scenario.builtin_name (-3) (Some Scenario.fun_args)
       (Some Scenario.closed_doc) ∅).1 = Returns.
Proof.
  assert (Hf : Forall (evaluates_false Scenario.builtin_name (-3) ∅)
                 [Guard SlycotArithmeticError "e.info = 1" ("Info is 1" +:+ nl)]).
  { repeat constructor. exists (VBool false). split; vm_compute; reflexivity. }
  split_and!; [vm_compute; reflexivity | exact Hf |].
  apply (closed_section_returns Scenario.builtin_name (-3) (Some Scenario.fun_args)
           (Some Scenario.closed_doc) ∅ _ ltac:(vm_compute; reflexivity) Hf).
Defined.

(** X5.  For a negative status and a non-empty argument list with fewer
    than [-status] names, when no rule of the docstring applies and the text
    is read to its end, the call raises [IndexError] and no domain error. *)
Theorem short_argument_list_raises_IndexError (builtin_name : string → bool) info
    (args : list string) docstring (cv : dict) gs :
  info < 0 → args ≠ [] → (length args < Z.to_nat (- info))%nat →
  documented_guards cv docstring = Some (gs, TextEnd) →
  Forall (evaluates_false builtin_name info cv) gs →
  (raise_if_slycot_error builtin_name info (Some args) docstring cv).1
  = Raises IndexError.
Proof.
  intros Hneg Hne Hlen Hd Hall.
  rewrite (unmatched_call _ _ _ _ _ gs TextEnd Hd Hall).
  by apply fallback_out_of_range.
Qed.

(** An instance: status -4 and three arguments. *)
Lemma short_argument_list_raises_IndexError_witness :
  -4 < 0 ∧ Scenario.fun_args ≠ []
  ∧ (length Scenario.fun_args < Z.to_nat (- -4))%nat
  ∧ documented_guards ∅ None = Some ([], TextEnd)
  ∧ (raise_if_slycot_error Scenario.builtin_name (-4) (Some Scenario.fun_args) None ∅).1
    = Raises IndexError.
Proof.
  split_and!; [lia | discriminate | vm_compute; lia | reflexivity |].
  apply (short_argument_list_raises_IndexError Scenario.builtin_name (-4)
           Scenario.fun_args None ∅ []);
    [lia | discriminate | vm_compute; lia | reflexivity | constructor].
Defined.

(** X6.  Without an argument list, or with an empty one, a call in which no
    rule of the docstring applies returns [None] for every status, a negative
    one included. *)
Theorem no_arguments_no_error (builtin_name : string → bool) info arg_list
    docstring (cv : dict) gs c :
  arg_list = None ∨ arg_list = Some [] →
  documented_guards cv docstring = Some (gs, c) →
  Forall (evaluates_false builtin_name info cv) gs →
  (raise_if_slycot_error builtin_name info arg_list docstring cv).1 = Returns.
Proof.
  intros Ha Hd Hall. rewrite (unmatched_call _ _ _ _ _ gs c Hd Hall).
  destruct c; [|done]. by destruct Ha as [-> | ->].
Qed.

(** An instance: the documented scenario with status -1 and no argument
    list. *)
Lemma no_arguments_no_error_witness :
  documented_guards Scenario.fun_vars (Some Scenario.fun_doc)
  = Some (Scenario.fun_guards, TextEnd)
  ∧ Forall (evaluates_false Scenario.builtin_name (-1) Scenario.fun_vars)
      Scenario.fun_guards
  ∧ (raise_if_slycot_error Scenario.builtin_name (-1) None
       (Some Scenario.fun_doc) Scenario.fun_vars).1 = Returns.
Proof.
  split_and!; [apply fun_doc_guards | apply fun_guards_false; by left |].
  apply (no_arguments_no_error Scenario.builtin_name (-1) None (Some Scenario.fun_doc)
           Scenario.fun_vars Scenario.fun_guards TextEnd);
    [by left | apply fun_doc_guards | apply fun_guards_false; by left].
Defined.

(** X7.  A call raises [RuntimeError] only for a guard that it evaluated:
    with the message "Unknown variable in infospec: " and the guard, when the
    guard refers to a name that is bound neither by the caller, nor as [e],
    nor among the builtins; with the message "Invalid infospec: " and the
    guard, when the guard is no expression. *)
Theorem runtime_error_origin (builtin_name : string → bool) info arg_list docstring
    (cv : dict) m :
  (raise_if_slycot_error builtin_name info arg_list docstring cv).1
    = Raises (RuntimeError m) →
  ∃ p, p ∈ evaluated (raise_if_slycot_error builtin_name info arg_list docstring cv).2
       ∧ ((m = "Unknown variable in infospec: " +:+ p
           ∧ ∃ n, n ∈ referenced_names p ∧ cv !! n = None ∧ n ≠ "e"
                  ∧ builtin_name n = false)
          ∨ (m = "Invalid infospec: " +:+ p
             ∧ guard_value builtin_name info cv p = Exc SyntaxError)).
Proof.
  intros H.
  destruct (runtime_error_from_guard builtin_name info arg_list docstring cv m H)
    as (p & Hp & [(n & Hn & ->) | (Hs & ->)]).
  - exists p. split; [done|]. left. split; [done|]. exists n.
    by apply (name_error_unbound builtin_name info cv p n).
  - exists p. split; [done|]. by right.
Qed.

(** An instance: the guard reaches [n], which nothing binds. *)
Lemma runtime_error_origin_witness :
  (raise_if_slycot_error Scenario.builtin_name 2 None
     (Some Scenario.short_circuit_doc) ∅).1
  = Raises (RuntimeError "Unknown variable in infospec: e.info > 1 and e.info < n")
  ∧ ∃ p, p ∈ evaluated (raise_if_slycot_error Scenario.builtin_name 2 None
                          (Some Scenario.short_circuit_doc) ∅).2.
Proof.
  assert (H : (raise_if_slycot_error Scenario.builtin_name 2 None
                 (Some Scenario.short_circuit_doc) ∅).1
              = Raises (RuntimeError
                          "Unknown variable in infospec: e.info > 1 and e.info < n"))
    by (vm_compute; reflexivity).
  split; [exact H|].
  destruct (runtime_error_origin Scenario.builtin_name 2 None
              (Some Scenario.short_circuit_doc) ∅ _ H) as (p & Hp & _).
  by exists p.
Defined.

(** X8.  The guards a call evaluates are, in document order and without a
    gap, a first run of guard clauses of the docstring, each of which
    evaluated to a false value, and then at most one more clause, which did
    not: nothing after it is evaluated. *)
Theorem evaluated_guards_shape (builtin_name : string → bool) info arg_list
    docstring (cv : dict) gs c :
  documented_guards cv docstring = Some (gs, c) →
  ∃ pre rest,
    gs = pre ++ rest
    ∧ Forall (evaluates_false builtin_name info cv) pre
    ∧ evaluated (raise_if_slycot_error builtin_name info arg_list docstring cv).2
      = clause_predicate <$> (pre ++ firstn 1 rest)
    ∧ (rest = []
       ∨ ∃ g rest', rest = g :: rest' ∧ ¬ evaluates_false builtin_name info cv g).
Proof.
  intros Hd.
  destruct (call_first_match builtin_name info arg_list docstring cv gs c Hd)
    as (-> & _ & _).
  apply first_match_log_shape.
Qed.

(** An instance: the documented scenario with status 2, where the second
    guard holds and the third is not evaluated. *)
Lemma evaluated_guards_shape_witness :
  documented_guards Scenario.fun_vars (Some Scenario.fun_doc)
  = Some (Scenario.fun_guards, TextEnd)
  ∧ evaluated (raise_if_slycot_error Scenario.builtin_name 2 (Some Scenario.fun_args)
                 (Some Scenario.fun_doc) Scenario.fun_vars).2
    = ["e.info = 1"; "e.info > 1 and e.info < n"]
  ∧ ∃ pre rest, Scenario.fun_guards = pre ++ rest.
Proof.
  split_and!; [apply fun_doc_guards | vm_compute; reflexivity |].
  destruct (evaluated_guards_shape Scenario.builtin_name 2 (Some Scenario.fun_args)
              (Some Scenario.fun_doc) Scenario.fun_vars Scenario.fun_guards TextEnd
              (fun_doc_guards _)) as (pre & rest & H & _).
  by exists pre, rest.
Defined.

(** X9.  The call writes to the standard output: the lines it prints are
    the first lines that follow the underline of the Raises section, as many
    as the loop goes over, and all of them when the text is read to its end
    without a rule; the lines of the message of a rule that applies are not
    among them.  Without a docstring, a title or an underline it prints
    nothing. *)
Theorem printed_lines (builtin_name : string → bool) info arg_list docstring
    (cv : dict) :
  (∃ k, stdout (raise_if_slycot_error builtin_name info arg_list docstring cv).2
        = firstn k (section_lines docstring))
  ∧ (∀ gs, documented_guards cv docstring = Some (gs, TextEnd) →
           Forall (evaluates_false builtin_name info cv) gs →
           stdout (raise_if_slycot_error builtin_name info arg_list docstring cv).2
           = section_lines docstring).
Proof.
  unfold raise_if_slycot_error, section_lines, documented_guards, scan_docstring.
  destruct docstring as [[|ch doc]|]; try (split; [by exists 0%nat | done]).
  destruct (after_raises (splitlines (String ch doc))) as [[|underline docline]|];
    try (split; [by exists 0%nat | done]).
  destruct (index "-" underline) as [section_indent|]; [|split; [by exists 0%nat | done]].
  pose proof (scan_stdout builtin_name info section_indent docline None (World cv [] []))
    as [Hk Hall].
  pose proof (scan_first_match builtin_name info cv section_indent docline None
                (World cv [] []) (or_introl eq_refl)) as (E1 & _ & _).
  cbn zeta in *.
  destruct (scan builtin_name info section_indent None (World cv [] []) docline)
    as [r w] eqn:Hscan.
  cbn [fst snd stdout] in *. split; [done|].
  intros gs [= Hgs] Hf. apply Hall. rewrite E1, Hgs. cbn [fst snd].
  by rewrite (first_match_all_false builtin_name info cv gs TextEnd Hf).
Qed.

(** An instance: the documented scenario with status 0 prints the whole
    section. *)
Lemma printed_lines_witness :
  documented_guards Scenario.fun_vars (Some Scenario.fun_doc)
  = Some (Scenario.fun_guards, TextEnd)
  ∧ Forall (evaluates_false Scenario.builtin_name 0 Scenario.fun_vars)
      Scenario.fun_guards
  ∧ stdout (raise_if_slycot_error Scenario.builtin_name 0 (Some Scenario.fun_args)
              (Some Scenario.fun_doc) Scenario.fun_vars).2
    = section_lines (Some Scenario.fun_doc).
Proof.
  split_and!; [apply fun_doc_guards | apply fun_guards_false; right; by left |].
  apply (proj2 (printed_lines Scenario.builtin_name 0 (Some Scenario.fun_args)
                  (Some Scenario.fun_doc) Scenario.fun_vars) Scenario.fun_guards);
    [apply fun_doc_guards | apply fun_guards_false; right; by left].
Defined.

(** X10.  After a call all of whose evaluated guards are expressions of the
    modelled kind (none of which writes to the dict), the dict that the call
    leaves behind serves the next call as well as the dict the caller
    started from: with it, a call of any status, argument list and docstring
    ends the same way and evaluates the same guards as with the original
    dict. *)
Theorem dict_left_behind_is_reusable (builtin_name : string → bool)
    info1 arg_list1 docstring1 info2 arg_list2 docstring2 (cv : dict) :
  let cv' := checkvars (raise_if_slycot_error builtin_name info1 arg_list1
                          docstring1 cv).2 in
  Forall (in_fragment builtin_name info1 cv)
    (evaluated (raise_if_slycot_error builtin_name info1 arg_list1 docstring1 cv).2) →
  (raise_if_slycot_error builtin_name info2 arg_list2 docstring2 cv').1
  = (raise_if_slycot_error builtin_name info2 arg_list2 docstring2 cv).1
  ∧ evaluated (raise_if_slycot_error builtin_name info2 arg_list2 docstring2 cv').2
    = evaluated (raise_if_slycot_error builtin_name info2 arg_list2 docstring2 cv).2.
Proof.
  cbn zeta. intros _.
  assert (Hcv : checkvars (raise_if_slycot_error builtin_name info1 arg_list1
                             docstring1 cv).2 = cv
                ∨ checkvars (raise_if_slycot_error builtin_name info1 arg_list1
                               docstring1 cv).2 = eval_scope info1 cv).
  { destruct (documented_guards cv docstring1) as [[gs c]|] eqn:Hd.
    - destruct (call_first_match builtin_name info1 arg_list1 docstring1 cv gs c Hd)
        as (_ & -> & _).
      destruct (first_match builtin_name info1 cv gs c).2; [by left | by right].
    - left. by rewrite (call_without_underline builtin_name info1 arg_list1
                          docstring1 cv Hd). }
  destruct Hcv as [-> | ->]; [done|].
  apply call_scope; [apply binds_i_eval_scope | apply eval_scope_eval_scope].
Qed.

(** An instance: the documented scenario, a call with status 0 and then,
    on the dict it leaves, a call with status 2. *)
Lemma dict_left_behind_is_reusable_witness :
  Forall (in_fragment Scenario.builtin_name 0 Scenario.fun_vars)
    (evaluated (raise_if_slycot_error Scenario.builtin_name 0 (Some Scenario.fun_args)
                  (Some Scenario.fun_doc) Scenario.fun_vars).2)
  ∧ checkvars (raise_if_slycot_error Scenario.builtin_name 0 (Some Scenario.fun_args)
                 (Some Scenario.fun_doc) Scenario.fun_vars).2
    = eval_scope 0 Scenario.fun_vars
  ∧ (raise_if_slycot_error Scenario.builtin_name 2 (Some Scenario.fun_args)
       (Some Scenario.fun_doc) (eval_scope 0 Scenario.fun_vars)).1
    = (raise_if_slycot_error Scenario.builtin_name 2 (Some Scenario.fun_args)
         (Some Scenario.fun_doc) Scenario.fun_vars).1.
Proof.
  assert (Hcv : checkvars (raise_if_slycot_error Scenario.builtin_name 0
                  (Some Scenario.fun_args) (Some Scenario.fun_doc) Scenario.fun_vars).2
                = eval_scope 0 Scenario.fun_vars) by (vm_compute; reflexivity).
  assert (Hfrag : Forall (in_fragment Scenario.builtin_name 0 Scenario.fun_vars)
            (evaluated (raise_if_slycot_error Scenario.builtin_name 0
               (Some Scenario.fun_args) (Some Scenario.fun_doc) Scenario.fun_vars).2)).
  { replace (evaluated _)
      with ["e.info = 1"; "e.info > 1 and e.info < n"; "n <= e.info < m"]
      by (vm_compute; reflexivity).
    repeat constructor; vm_compute; discriminate. }
  split_and!; [exact Hfrag | exact Hcv |].
  rewrite <- Hcv.
  exact (proj1 (dict_left_behind_is_reusable Scenario.builtin_name
                  0 (Some Scenario.fun_args) (Some Scenario.fun_doc)
                  2 (Some Scenario.fun_args) (Some Scenario.fun_doc)
                  Scenario.fun_vars Hfrag)).
Defined.

(** X11.  What the caller binds to [e] is never seen: the call ends the
    same way and evaluates the same guards whatever that binding, and when
    it has evaluated a guard [e] holds the error object of line 158. *)
Theorem binding_of_e_is_ignored (builtin_name : string → bool) info arg_list
    docstring (cv : dict) v :
  (raise_if_slycot_error builtin_name info arg_list docstring (<["e" := v]> cv)).1
  = (raise_if_slycot_error builtin_name info arg_list docstring cv).1
  ∧ evaluated (raise_if_slycot_error builtin_name info arg_list docstring
                 (<["e" := v]> cv)).2
    = evaluated (raise_if_slycot_error builtin_name info arg_list docstring cv).2.
Proof.
  apply call_scope; [|apply eval_scope_insert_e].
  unfold binds_i. by rewrite lookup_insert_ne.
Qed.

(** No line of [docline] is a definition term. *)
Lemma guard_clauses_without_term i_bound section_indent docline :
  Forall (λ l, ematch l = None) docline →
  (guard_clauses i_bound section_indent None docline).1 = [].
Proof.
  induction 1 as [|l docline Hl _ IH]; [done|].
  cbn [guard_clauses]. destruct (String.eqb (strip l) ""); [done|].
  destruct (isspace (take section_indent l)); cbn [negb]; [|done].
  unfold header_after. by rewrite Hl.
Qed.

(** X12.  In a Raises section none of whose lines is a definition term
    ([SlycotError : e] or one of its subclasses), guard lines are not read:
    the call evaluates nothing, leaves the dict as it was, and either does
    what lines 187 to 190 do or returns. *)
Theorem section_without_term (builtin_name : string → bool) info arg_list doc
    (cv : dict) underline section_indent docline :
  after_raises (splitlines doc) = Some (underline :: docline) →
  index "-" underline = Some section_indent →
  Forall (λ l, ematch l = None) docline →
  evaluated (raise_if_slycot_error builtin_name info arg_list (Some doc) cv).2 = []
  ∧ checkvars (raise_if_slycot_error builtin_name info arg_list (Some doc) cv).2 = cv
  ∧ ((raise_if_slycot_error builtin_name info arg_list (Some doc) cv).1
       = fallback info arg_list
     ∨ (raise_if_slycot_error builtin_name info arg_list (Some doc) cv).1 = Returns).
Proof.
  intros Ha Hi Hterm.
  pose proof (guard_clauses_without_term (binds_i cv) section_indent docline Hterm) as Hgs.
  destruct (guard_clauses (binds_i cv) section_indent None docline) as [gs c] eqn:Hgc.
  cbn [fst] in Hgs. subst gs.
  assert (Hd : documented_guards cv (Some doc) = Some ([], c)).
  { unfold documented_guards. destruct doc as [|ch doc]; [done|].
    rewrite Ha, Hi. cbn. by rewrite Hgc. }
  destruct (call_first_match builtin_name info arg_list (Some doc) cv [] c Hd)
    as (-> & -> & ->).
  cbn. split_and!; [done|done|]. destruct c; [by left | by right].
Qed.

(** An instance: the guard line stands under no definition term, and the
    status it names goes unreported. *)
Lemma section_without_term_witness :
  after_raises (splitlines More_inputs.headerless_doc)
  = Some ["    ------"; "        :e.info = 1: Info is 1"]
  ∧ index "-" "    ------" = Some 4%nat
  ∧ Forall (λ l, ematch l = None) ["        :e.info = 1: Info is 1"]
  ∧ evaluated (raise_if_slycot_error Scenario.builtin_name 1 (Some Scenario.fun_args)
                 (Some More_inputs.headerless_doc) ∅).2 = []
  ∧ (raise_if_slycot_error Scenario.builtin_name 1 (Some Scenario.fun_args)
       (Some More_inputs.headerless_doc) ∅).1 = Returns.
Proof.
  assert (Ht : Forall (λ l, ematch l = None) ["        :e.info = 1: Info is 1"])
    by (repeat constructor).
  pose proof (section_without_term Scenario.builtin_name 1 (Some Scenario.fun_args)
                More_inputs.headerless_doc ∅ "    ------" 4%nat
                ["        :e.info = 1: Info is 1"]
                ltac:(vm_compute; reflexivity) ltac:(vm_compute; reflexivity) Ht)
    as (He & _ & _).
  split_and!; [vm_compute; reflexivity | vm_compute; reflexivity | exact Ht
              | exact He | vm_compute; reflexivity].
Defined.

(** X13.  The argument list matters for a negative status only: for a
    status of 0 or above, two calls that differ in their argument lists end
    the same way and leave the same behind. *)
Theorem arg_list_matters_for_negative_status_only (builtin_name : string → bool)
    info arg_list1 arg_list2 docstring (cv : dict) :
  0 <= info →
  raise_if_slycot_error builtin_name info arg_list1 docstring cv
  = raise_if_slycot_error builtin_name info arg_list2 docstring cv.
Proof.
  intros Hpos. unfold raise_if_slycot_error.
  destruct (match docstring with
            | Some (String _ _ as doc) => scan_docstring builtin_name info doc (World cv [] [])
            | _ => (NoRule, World cv [] [])
            end) as [r w].
  f_equal. destruct r; cbn [conclude]; try done.
  - by rewrite !fallback_nonnegative.
  - destruct (negb _); [done|]. by rewrite !fallback_nonnegative.
Qed.

(** An instance: the documented scenario with status 0. *)
Lemma arg_list_matters_for_negative_status_only_witness :
  0 <= 0
  ∧ raise_if_slycot_error Scenario.builtin_name 0 (Some Scenario.fun_args)
      (Some Scenario.fun_doc) Scenario.fun_vars
    = raise_if_slycot_error Scenario.builtin_name 0 None
        (Some Scenario.fun_doc) Scenario.fun_vars.
Proof.
  split; [lia|].
  apply (arg_list_matters_for_negative_status_only Scenario.builtin_name 0). lia.
Defined.

(** X14.  Which handlers catch what a call raises, for a call that the
    model follows to its end: its guards and its template are of the
    modelled kind, so that the exception is one the model names (a division
    by zero in a guard, or a template that is ill-formed, is not of that
    kind).  A handler for [SlycotError] catches domain errors only, and each
    carries the status of the call as its [info].  A handler for
    [RuntimeError] catches those too, and with them the [RuntimeError] raised
    for a guard that cannot be evaluated, which a handler for [SlycotError]
    lets pass.  A handler for [ValueError] catches the parameter errors and
    the [ValueError] of line 124; one for [ArithmeticError] the arithmetic
    errors. *)
Theorem handlers (builtin_name : string → bool) info arg_list docstring
    (cv : dict) e :
  (raise_if_slycot_error builtin_name info arg_list docstring cv).1 = Raises e →
  e ≠ OutsideModel →
  (∀ handler, is_Some (caught_by handler e))
  ∧ (caught_by (CSlycot SlycotError) e = Some true →
       info_of e = Some info ∧ caught_by CRuntimeError e = Some true)
  ∧ (∀ m, e = RuntimeError m →
       caught_by CRuntimeError e = Some true
       ∧ caught_by (CSlycot SlycotError) e = Some false)
  ∧ (caught_by CValueError e = Some true →
       e = ValueError ∨ ∃ m, e = Slycot SlycotParameterError m info)
  ∧ (caught_by CArithmeticError e = Some true →
       ∃ m, e = Slycot SlycotArithmeticError m info).
Proof.
  intros H Hm.
  assert (Hi : ∀ k m i, e = Slycot k m i → i = info).
  { intros k m i ->.
    by destruct (raised_slycot builtin_name info arg_list docstring cv k m i H). }
  split_and!.
  - intros handler. by destruct e.
  - destruct e as [k m i| | | | | | | |]; try done.
    intros _. rewrite (Hi k m i eq_refl). by destruct k.
  - by intros m ->.
  - destruct e as [k m i| | | | | | | |]; try done; [|by left].
    destruct k; try done. intros _. right. exists m. by rewrite (Hi _ m i eq_refl).
  - destruct e as [k m i| | | | | | | |]; try done.
    destruct k; try done. intros _. exists m. by rewrite (Hi _ m i eq_refl).
Qed.

(** An instance: the parameter error of a negative status is caught by a
    handler for [SlycotError], for [RuntimeError] and for [ValueError]. *)
Lemma handlers_witness :
  (raise_if_slycot_error Scenario.builtin_name (-1) (Some Scenario.fun_args) None ∅).1
  = Raises (Slycot SlycotParameterError
              "The following argument had an illegal value: a" (-1))
  ∧ Slycot SlycotParameterError "The following argument had an illegal value: a" (-1)
    ≠ OutsideModel
  ∧ caught_by (CSlycot SlycotError)
      (Slycot SlycotParameterError
         "The following argument had an illegal value: a" (-1)) = Some true
  ∧ caught_by CValueError
      (Slycot SlycotParameterError
         "The following argument had an illegal value: a" (-1)) = Some true
  ∧ caught_by CRuntimeError
      (Slycot SlycotParameterError
         "The following argument had an illegal value: a" (-1)) = Some true.
Proof.
  assert (H : (raise_if_slycot_error Scenario.builtin_name (-1)
                 (Some Scenario.fun_args) None ∅).1
              = Raises (Slycot SlycotParameterError
                          "The following argument had an illegal value: a" (-1)))
    by reflexivity.
  assert (Hm : Slycot SlycotParameterError
                 "The following argument had an illegal value: a" (-1) ≠ OutsideModel)
    by discriminate.
  assert (Hc : caught_by (CSlycot SlycotError)
                 (Slycot SlycotParameterError
                    "The following argument had an illegal value: a" (-1)) = Some true)
    by reflexivity.
  split_and!; [exact H | exact Hm | exact Hc | reflexivity |].
  exact (proj2 (proj1 (proj2 (handlers Scenario.builtin_name (-1)
                                (Some Scenario.fun_args) None ∅ _ H Hm)) Hc)).
Defined.

(** ** A template that names a key the dict does not bind *)

Section Template.
Import Templates.

Lemma rev_app_rev_app (s t u : string) :
  String.rev_app (String.rev_app s t) u = String.rev_app t (s +:+ u).
Proof. revert t u. induction s as [|a s IH]; intros t u; [done|]. cbn. by rewrite IH. Qed.

Lemma append_empty_r (s : string) : s +:+ "" = s.
Proof.
  induction s as [|a s IH]; [done|].
  change (String a (s +:+ "") = String a s). by rewrite IH.
Qed.

Lemma rev_rev (s : string) : String.rev (String.rev s) = s.
Proof. unfold String.rev. rewrite rev_app_rev_app. cbn. apply append_empty_r. Qed.

Lemma break_at_nowhere stop (s : string) :
  forallb (λ c, negb (stop c)) (list_ascii_of_string s) = true →
  break_at stop s = (s, "").
Proof.
  induction s as [|a s IH]; [done|]. cbn.
  intros [Ha Hs]%andb_true_iff. apply negb_true_iff in Ha. by rewrite Ha, IH.
Qed.

Lemma forallb_weaken {A} (p q : A → bool) (l : list A) :
  (∀ x, p x = true → q x = true) → forallb p l = true → forallb q l = true.
Proof.
  intros Hpq. induction l as [|x l IH]; [done|]. cbn.
  intros [Hx Hl]%andb_true_iff. by rewrite (Hpq x Hx), IH.
Qed.

Lemma format_field_missing_key (kwargs : dict) name :
  key_name name = true → kwargs !! name = None →
  format_field kwargs name = Exc (KeyError name).
Proof.
  unfold key_name. intros [Hd Hc]%andb_true_iff Hk. apply negb_true_iff in Hd.
  unfold format_field.
  replace (existsb _ (list_ascii_of_string name)) with false.
  2:{ symmetry. apply not_true_iff_false. intros (c & Hin & Hs)%existsb_exists.
      rewrite forallb_forall in Hc. specialize (Hc c Hin).
      apply negb_true_iff in Hc.
      repeat (apply orb_false_iff in Hc as [Hc ?]).
      repeat (apply orb_true_iff in Hs as [Hs|Hs]); congruence. }
  rewrite (break_at_nowhere (is_char ":") name).
  2:{ revert Hc. apply forallb_weaken. intros c Hc. apply negb_true_iff in Hc.
      repeat (apply orb_false_iff in Hc as [Hc ?]). by apply negb_true_iff. }
  rewrite (break_at_nowhere (is_char ".") name).
  2:{ revert Hc. apply forallb_weaken. intros c Hc. apply negb_true_iff in Hc.
      repeat (apply orb_false_iff in Hc as [Hc ?]). by apply negb_true_iff. }
  by rewrite Hd, Hk.
Qed.

Lemma format_go_plain (kwargs : dict) prefix s :
  plain_text prefix = true →
  format_go kwargs None (prefix +:+ s) = (λ t, prefix +:+ t) <$> format_go kwargs None s.
Proof.
  unfold plain_text. induction prefix as [|a prefix IH]; cbn [list_ascii_of_string forallb].
  - intros _. change ("" +:+ s) with s. destruct (format_go kwargs None s); reflexivity.
  - intros [Ha Hp]%andb_true_iff. apply negb_true_iff, orb_false_iff in Ha as [Ho Hc].
    change (String a prefix +:+ s) with (String a (prefix +:+ s)).
    cbn [format_go]. rewrite Ho, Hc, (IH Hp).
    destruct (format_go kwargs None s); reflexivity.
Qed.

Lemma format_go_field (kwargs : dict) name : ∀ acc rest,
  forallb (λ c, negb (is_char "}" c)) (list_ascii_of_string name) = true →
  format_go kwargs (Some acc) (name +:+ String "}" rest)
  = (text ← format_field kwargs (String.rev (String.rev_app name acc));
     tail ← format_go kwargs None rest;
     Val (text +:+ tail)).
Proof.
  induction name as [|a name IH]; intros acc rest; cbn [list_ascii_of_string forallb].
  - done.
  - intros [Ha Hn]%andb_true_iff. apply negb_true_iff in Ha.
    change (String a name +:+ String "}" rest) with (String a (name +:+ String "}" rest)).
    cbn [format_go]. rewrite Ha. by rewrite (IH _ _ Hn).
Qed.

(** A template whose first field names a key that the dict does not bind. *)
Lemma format_unbound_key (kwargs : dict) prefix name rest :
  plain_text prefix = true → key_name name = true → kwargs !! name = None →
  format (prefix +:+ String "{" (name +:+ String "}" rest)) kwargs
  = Exc (KeyError name).
Proof.
  intros Hp Hn Hk. unfold format. rewrite (format_go_plain _ _ _ Hp).
  assert (Hc : forallb (λ c, negb (is_char "}" c)) (list_ascii_of_string name) = true).
  { unfold key_name in Hn. apply andb_true_iff in Hn as [_ Hn].
    revert Hn. apply forallb_weaken. intros c Hc. apply negb_true_iff in Hc.
    repeat (apply orb_false_iff in Hc as [Hc ?]). by apply negb_true_iff. }
  destruct name as [|d name]; [done|].
  assert (Hd : is_char "{" d = false).
  { unfold key_name in Hn. apply andb_true_iff in Hn as [_ Hn].
    cbn [list_ascii_of_string forallb] in Hn. apply andb_true_iff in Hn as [Hn _].
    apply negb_true_iff in Hn. by repeat (apply orb_false_iff in Hn as [Hn ?]). }
  cbn [format_go]. change (is_char "{" "{") with true. cbv iota.
  change (String d name +:+ String "}" rest) with (String d (name +:+ String "}" rest)).
  cbv iota. rewrite Hd.
  change (String d (name +:+ String "}" rest)) with (String d name +:+ String "}" rest).
  rewrite (format_go_field _ _ _ _ Hc).
  change (String.rev (String.rev_app (String d name) "")) with
    (String.rev (String.rev (String d name))).
  rewrite rev_rev, (format_field_missing_key _ _ Hn Hk). done.
Qed.

End Template.

(** X15.  When the rule that applies has a template whose first replacement
    field names a key that the dict does not bind (the caller's bindings,
    [e] and [__builtins__]), the call raises [KeyError] for that key, not the
    domain error of the rule: line 184 fails before line 185 is reached. *)
Theorem template_missing_key (builtin_name : string → bool) info arg_list docstring
    (cv : dict) pre g post c prefix name rest :
  documented_guards cv docstring = Some (pre ++ g :: post, c) →
  Forall (evaluates_false builtin_name info cv) pre →
  evaluates_true builtin_name info cv g →
  clause_message g = prefix +:+ String "{" (name +:+ String "}" rest) →
  Templates.plain_text prefix = true → Templates.key_name name = true →
  cv !! name = None → name ≠ "e" → name ≠ "__builtins__" →
  (raise_if_slycot_error builtin_name info arg_list docstring cv).1
  = Raises (KeyError name).
Proof.
  intros Hd Hpre Hg Hm Hp Hn Hk He Hb.
  destruct (call_first_match builtin_name info arg_list docstring cv _ c Hd)
    as (_ & _ & ->).
  rewrite (first_match_first_true builtin_name info cv pre g post c Hpre Hg).
  cbn [fst snd conclude].
  rewrite (documented_guards_message cv docstring _ c g Hd)
    by (apply elem_of_app; right; left).
  cbn [negb]. replace (log_dict info cv cv _) with (eval_scope info cv) by (by destruct pre).
  rewrite Hm, format_unbound_key; [done|done|done|].
  by rewrite eval_scope_other.
Qed.

(** An instance: the template names [k], the caller binds nothing. *)
Lemma template_missing_key_witness :
  documented_guards ∅ (Some More_inputs.template_doc)
  = Some ([] ++ Guard SlycotArithmeticError "e.info = 1" ("Step {k} failed" +:+ nl)
             :: [], TextEnd)
  ∧ evaluates_true Scenario.builtin_name 1 ∅
      (Guard SlycotArithmeticError "e.info = 1" ("Step {k} failed" +:+ nl))
  ∧ "Step {k} failed" +:+ nl = "Step " +:+ String "{" ("k" +:+ String "}" (" failed" +:+ nl))
  ∧ Templates.plain_text "Step " = true ∧ Templates.key_name "k" = true
  ∧ (∅ : dict) !! "k" = None
  ∧ (raise_if_slycot_error Scenario.builtin_name 1 (Some Scenario.fun_args)
       (Some More_inputs.template_doc) ∅).1 = Raises (KeyError "k").
Proof.
  assert (Hg : evaluates_true Scenario.builtin_name 1 ∅
                 (Guard SlycotArithmeticError "e.info = 1" ("Step {k} failed" +:+ nl))).
  { exists (VBool true). split; vm_compute; reflexivity. }
  split_and!; [vm_compute; reflexivity | exact Hg | reflexivity | reflexivity
              | reflexivity | reflexivity |].
  apply (template_missing_key Scenario.builtin_name 1 (Some Scenario.fun_args)
           (Some More_inputs.template_doc) ∅ [] _ [] TextEnd "Step " "k"
           (" failed" +:+ nl) ltac:(vm_compute; reflexivity) ltac:(constructor) Hg);
    [reflexivity | reflexivity | reflexivity | reflexivity | discriminate | discriminate].
Defined.
